(** * ConfigToolbar, MoveDownTune and DeleteTune of editor.js

    A shallow embedding of
      - src/components/modules/configToolbar/index.ts  (ConfigToolbar)
      - src/components/block-tunes/block-tune-move-down.ts (MoveDownTune)
      - the DeleteTune class (block-tune-delete)
    and the properties of the toolbar state machine, of the positioning
    arithmetic and of the tunes.

    JavaScript numbers are idealised as exact rationals plus NaN; the
    geometry the code reads (offsetTop, offsetHeight, innerHeight, scrollY,
    bounding rectangles) is in the range where double arithmetic is exact. *)

From Stdlib Require Import ZArith QArith Qround Qabs String Ascii List Bool Lia.
From Stdlib Require Import DecimalString DecimalPos.
Import ListNotations.

Local Open Scope string_scope.
Local Open Scope Z_scope.

(* ------------------------------------------------------------------ *)
(** ** The JavaScript values the code computes with *)

Module JS.

(** A JS [number]: a rational or NaN. *)
Inductive number : Type :=
| Num (q : Q)
| NaN.

Definition of_Z (z : Z) : number := Num (inject_Z z).

(** [a + b] *)
Definition add (a b : number) : number :=
  match a, b with
  | Num x, Num y => Num (x + y)
  | _, _ => NaN
  end.

(** [a - b] *)
Definition sub (a b : number) : number :=
  match a, b with
  | Num x, Num y => Num (x - y)
  | _, _ => NaN
  end.

(** [a < b]; every comparison with NaN is false. *)
Definition lt (a b : number) : bool :=
  match a, b with
  | Num x, Num y => negb (Qle_bool y x)
  | _, _ => false
  end.

(** [Math.abs] *)
Definition Math_abs (a : number) : number :=
  match a with
  | Num x => Num (Qabs x)
  | NaN => NaN
  end.

(** [Math.floor]: the result is integral ([Some z]) or NaN ([None]). *)
Definition Math_floor (a : number) : option Z :=
  match a with
  | Num x => Some (Qfloor x)
  | NaN => None
  end.

(** The decimal text of an integral number, as a template literal
    [`${n}`] prints it. *)
Definition string_of_Z (z : Z) : string :=
  NilZero.string_of_int (Z.to_int z).

Definition toString (n : option Z) : string :=
  match n with
  | Some z => string_of_Z z
  | None => "NaN"
  end.

(** *** [parseInt(s, 10)] *)

Definition is_white (c : ascii) : bool :=
  let n := nat_of_ascii c in
  (Nat.eqb n 32 || Nat.eqb n 9 || Nat.eqb n 10 || Nat.eqb n 11
   || Nat.eqb n 12 || Nat.eqb n 13)%bool.

Definition digit_of (c : ascii) : option Z :=
  let n := Z.of_nat (nat_of_ascii c) in
  if ((48 <=? n) && (n <=? 57))%bool then Some (n - 48) else None.

Fixpoint skip_white (s : string) : string :=
  match s with
  | String c r => if is_white c then skip_white r else s
  | EmptyString => s
  end.

(** The longest prefix of decimal digits, read most significant digit
    first; [acc] is [None] until a digit has been read. *)
Fixpoint read_digits (s : string) (acc : option Z) : option Z :=
  match s with
  | String c r =>
      match digit_of c with
      | Some d =>
          read_digits r (Some (10 * (match acc with Some a => a | None => 0 end) + d))
      | None => acc
      end
  | EmptyString => acc
  end.

Definition parseInt (s : string) : number :=
  let s := skip_white s in
  let '(sign, s) :=
    match s with
    | String "-" r => (-1, r)
    | String "+" r => (1, r)
    | _ => (1, s)
    end in
  match read_digits s None with
  | Some n => of_Z (sign * n)
  | None => NaN
  end.

(** [x ?? d] on an optional boolean. *)
Definition nullish (x : option bool) (d : bool) : bool :=
  match x with
  | Some b => b
  | None => d
  end.

End JS.

(* ------------------------------------------------------------------ *)
(** ** DOM elements, as far as the toolbar touches them *)

Module Dom.

(** An element: its identity, its [classList] (an ordered set of
    tokens) and [style.top]. *)
Record Element : Type := mkElement {
  eid : nat;
  classList : list string;
  style_top : string
}.

Definition contains (l : list string) (c : string) : bool :=
  existsb (String.eqb c) l.

(** [classList.add]: appends the token unless it is there. *)
Definition add (l : list string) (c : string) : list string :=
  if contains l c then l else l ++ [c].

(** [classList.remove] *)
Definition remove (l : list string) (c : string) : list string :=
  filter (fun x => negb (String.eqb c x)) l.

Definition set_classList (l : list string) (e : Element) : Element :=
  mkElement (eid e) l (style_top e).

Definition set_style_top (t : string) (e : Element) : Element :=
  mkElement (eid e) (classList e) t.

End Dom.

(* ------------------------------------------------------------------ *)
(** ** Blocks and the collaborators the toolbar and the tunes read *)

(** [block.holder]: the geometry of the block's root container. *)
Record Holder : Type := mkHolder {
  offsetTop : Q;
  offsetHeight : Q;
  (** [getBoundingClientRect().top] *)
  rect_top : Q
}.

Record Block : Type := mkBlock {
  block_id : nat;
  holder : Holder;
  (** [window.getComputedStyle(block.pluginsContent).paddingTop] *)
  paddingTop : string;
  isEmpty : bool;
  editable : bool
}.

Record Window : Type := mkWindow {
  innerHeight : Q;
  innerWidth : Q;
  scrollY : Q
}.

(** The state of the other editor modules: BlockManager, UI, ReadOnly,
    BlockSettings, and the browser window. *)
Record Editor : Type := mkEditor {
  blocks : list Block;
  (** [BlockManager.currentBlockIndex]; [-1] when there is none. *)
  currentBlockIndex : Z;
  (** [UI.isMobile] *)
  isMobile : bool;
  (** [ReadOnly.isEnabled] *)
  readOnly_isEnabled : bool;
  window : Window;
  (** whether the Block Settings panel is open *)
  blockSettingsOpened : bool
}.

(** [interface ToolbarNodes] *)
Record ToolbarNodes : Type := mkNodes {
  wrapper : option Dom.Element;
  content : option Dom.Element;
  actions : option Dom.Element;
  plusButton : option Dom.Element;
  settingsToggler : option Dom.Element
}.

(** The names of the event channels. *)
Definition BlockHovered : string := "block hovered".
Definition SettingsClicked : string := "settings clicked".

(** The closures the module registers. *)
Inductive Listener : Type :=
| (** [readOnlyMutableListeners.on(node, type, handler, capture)], the
      handler being the toggler's mousedown closure *)
  OnTogglerMousedown (target : nat) (type : string) (capture : bool).

Inductive Subscriber : Type :=
| (** [(data) => this.moveAndOpen(data.block)] *)
  OnBlockHovered.

Inductive IdleCallback : Type :=
| (** [() => { this.drawUI(); this.enableModuleBindings(); }] *)
  RebuildUI.

(** Calls that leave the module, in the order they are made. *)
Inductive Effect : Type :=
| SetCurrentBlock (b : option Block)
| Emit (channel : string) (payload : option Block)
| StopPropagation
| TooltipHide (skipDelay : bool)
| TooltipOnHover (target : nat) (hidingDelay : Z)
| AppendToEditor (node : nat)
| ScrollTo (x y : JS.number)
| BlocksMove (toIndex : Z)
| BlocksDelete
| ToggleBlockSettings (openingState : option bool).

Record State : Type := mkState {
  (** [this.config.hideConfigToolbar] *)
  hideConfigToolbar : option bool;
  nodes : ToolbarNodes;
  hoveredBlock : option Block;
  (** the listeners held by [readOnlyMutableListeners] *)
  listeners : list Listener;
  (** the subscriptions of [eventsDispatcher], per channel, in
      registration order *)
  subscriptions : list (string * Subscriber);
  (** callbacks given to [window.requestIdleCallback] and not yet run,
      each with its timeout in milliseconds *)
  idleQueue : list (IdleCallback * Z);
  (** source of fresh element identities *)
  nextId : nat;
  editor : Editor;
  trace : list Effect
}.

Definition set_nodes (n : ToolbarNodes) (s : State) : State :=
  mkState (hideConfigToolbar s) n (hoveredBlock s) (listeners s)
    (subscriptions s) (idleQueue s) (nextId s) (editor s) (trace s).

Definition set_hoveredBlock (b : option Block) (s : State) : State :=
  mkState (hideConfigToolbar s) (nodes s) b (listeners s)
    (subscriptions s) (idleQueue s) (nextId s) (editor s) (trace s).

Definition set_listeners (l : list Listener) (s : State) : State :=
  mkState (hideConfigToolbar s) (nodes s) (hoveredBlock s) l
    (subscriptions s) (idleQueue s) (nextId s) (editor s) (trace s).

Definition set_subscriptions (l : list (string * Subscriber)) (s : State) : State :=
  mkState (hideConfigToolbar s) (nodes s) (hoveredBlock s) (listeners s)
    l (idleQueue s) (nextId s) (editor s) (trace s).

Definition set_idleQueue (q : list (IdleCallback * Z)) (s : State) : State :=
  mkState (hideConfigToolbar s) (nodes s) (hoveredBlock s) (listeners s)
    (subscriptions s) q (nextId s) (editor s) (trace s).

Definition set_nextId (n : nat) (s : State) : State :=
  mkState (hideConfigToolbar s) (nodes s) (hoveredBlock s) (listeners s)
    (subscriptions s) (idleQueue s) n (editor s) (trace s).

Definition set_editor (e : Editor) (s : State) : State :=
  mkState (hideConfigToolbar s) (nodes s) (hoveredBlock s) (listeners s)
    (subscriptions s) (idleQueue s) (nextId s) e (trace s).

Definition set_trace (t : list Effect) (s : State) : State :=
  mkState (hideConfigToolbar s) (nodes s) (hoveredBlock s) (listeners s)
    (subscriptions s) (idleQueue s) (nextId s) (editor s) t.

Definition set_wrapper (w : option Dom.Element) (n : ToolbarNodes) : ToolbarNodes :=
  mkNodes w (content n) (actions n) (plusButton n) (settingsToggler n).

Definition set_content (c : option Dom.Element) (n : ToolbarNodes) : ToolbarNodes :=
  mkNodes (wrapper n) c (actions n) (plusButton n) (settingsToggler n).

Definition set_actions (a : option Dom.Element) (n : ToolbarNodes) : ToolbarNodes :=
  mkNodes (wrapper n) (content n) a (plusButton n) (settingsToggler n).

Definition set_settingsToggler (t : option Dom.Element) (n : ToolbarNodes) : ToolbarNodes :=
  mkNodes (wrapper n) (content n) (actions n) (plusButton n) t.

Definition set_blocks (l : list Block) (e : Editor) : Editor :=
  mkEditor l (currentBlockIndex e) (isMobile e) (readOnly_isEnabled e)
    (window e) (blockSettingsOpened e).

Definition set_currentBlockIndex (i : Z) (e : Editor) : Editor :=
  mkEditor (blocks e) i (isMobile e) (readOnly_isEnabled e)
    (window e) (blockSettingsOpened e).

Definition set_blockSettingsOpened (b : bool) (e : Editor) : Editor :=
  mkEditor (blocks e) (currentBlockIndex e) (isMobile e) (readOnly_isEnabled e)
    (window e) b.

(* ------------------------------------------------------------------ *)
(** ** Methods: state passing with exceptions

    A method call ends normally with a value or throws; either way the
    mutations made so far stay. *)

Inductive Error : Type :=
| TypeError
| ErrorMsg (message : string).

Inductive Res (A : Type) : Type :=
| Ok (a : A) (s : State)
| Throw (e : Error) (s : State).

Arguments Ok {A} a s.
Arguments Throw {A} e s.

Definition M (A : Type) : Type := State -> Res A.

Definition ret {A} (a : A) : M A := fun s => Ok a s.

Definition bind {A B} (m : M A) (k : A -> M B) : M B :=
  fun s =>
    match m s with
    | Ok a s' => k a s'
    | Throw e s' => Throw e s'
    end.

Definition throw {A} (e : Error) : M A := fun s => Throw e s.

Definition get : M State := fun s => Ok s s.

Definition modify (f : State -> State) : M unit := fun s => Ok tt (f s).

Definition effect (e : Effect) : M unit :=
  modify (fun s => set_trace (trace s ++ [e]) s).

(** Reading a property of a node that may be [undefined]: a TypeError
    when it is. *)
Definition deref {A} (o : option A) : M A :=
  match o with
  | Some a => ret a
  | None => throw TypeError
  end.

(** The state a call leaves behind, thrown or not. *)
Definition final {A} (r : Res A) : State :=
  match r with
  | Ok _ s => s
  | Throw _ s => s
  end.

Declare Scope method_scope.
Delimit Scope method_scope with method.
Notation "x <- c ;; k" := (bind c (fun x => k))
  (at level 61, c at next level, right associativity) : method_scope.
Notation "c ;; k" := (bind c (fun _ => k))
  (at level 61, right associativity) : method_scope.
Local Open Scope method_scope.

(* ------------------------------------------------------------------ *)
(** ** Collaborators outside these sources *)

Module Collab.

(** [blocks[i]]: [undefined] outside the sequence. *)
Definition nth_block (l : list Block) (i : Z) : option Block :=
  if i <? 0 then None else nth_error l (Z.to_nat i).

(** The index of the first block with the identity of [b], counting
    from [i]; [-1] when there is none. *)
Fixpoint index_from (l : list Block) (b : Block) (i : Z) : Z :=
  match l with
  | [] => -1
  | x :: r => if Nat.eqb (block_id x) (block_id b) then i else index_from r b (i + 1)
  end.

(** Modelled from the spec: the Block Sequence is an external
    collaborator (2 and 6: current index, block lookup by index);
    [BlockManager.currentBlock] reads the block at the current index. *)
Definition currentBlock (e : Editor) : option Block :=
  nth_block (blocks e) (currentBlockIndex e).

(** Modelled from the spec: the setter of [BlockManager.currentBlock]
    is not in the sources; 4.2 has it re-synchronise the current block
    of the Block Sequence to the block given, here the index of the
    block with that identity ([-1] for none). *)
Definition set_currentBlock (b : option Block) : M unit :=
  effect (SetCurrentBlock b) ;;
  modify (fun s =>
    set_editor
      (set_currentBlockIndex
         (match b with
          | Some b => index_from (blocks (editor s)) b 0
          | None => -1
          end) (editor s)) s).

(** Modelled from the spec: [api.blocks.getCurrentBlockIndex()], the
    current-block-index query of the capability handle (6). *)
Definition getCurrentBlockIndex : M Z :=
  s <- get ;; ret (currentBlockIndex (editor s)).

(** Modelled from the spec: [api.blocks.getBlockByIndex(i)], the
    block-by-index query (6); [undefined] outside the sequence. *)
Definition getBlockByIndex (i : Z) : M (option Block) :=
  s <- get ;; ret (nth_block (blocks (editor s)) i).

(** The sequence without its [n]-th block, and with [b] put at place
    [n]. *)
Fixpoint remove_at (n : nat) (l : list Block) : list Block :=
  match n, l with
  | _, [] => []
  | O, _ :: r => r
  | S n, x :: r => x :: remove_at n r
  end.

Fixpoint insert_at (n : nat) (b : Block) (l : list Block) : list Block :=
  match n, l with
  | O, _ => b :: l
  | S n, x :: r => x :: insert_at n b r
  | S _, [] => [b]
  end.

(** Modelled from the spec: [api.blocks.move(toIndex)], the
    move-by-index command (6): the current block is taken out and put
    back at [toIndex], and stays the current block (8: moving a
    non-last block down swaps it with the next one, and a move-up from
    the new position restores the order). Nothing moves when either
    index is outside the sequence. *)
Definition move (toIndex : Z) : M unit :=
  effect (BlocksMove toIndex) ;;
  modify (fun s =>
    let e := editor s in
    match nth_block (blocks e) (currentBlockIndex e),
          nth_block (blocks e) toIndex with
    | Some b, Some _ =>
        set_editor
          (set_currentBlockIndex toIndex
             (set_blocks
                (insert_at (Z.to_nat toIndex) b
                   (remove_at (Z.to_nat (currentBlockIndex e)) (blocks e))) e)) s
    | _, _ => s
    end).

(** Modelled from the spec: [api.blocks.delete()], the delete-current
    command (6): the current block leaves the sequence (8: the length
    decreases by exactly one). The spec does not say what the current
    index becomes; it is kept. Nothing is deleted when there is no
    current block. *)
Definition delete : M unit :=
  effect BlocksDelete ;;
  modify (fun s =>
    let e := editor s in
    match nth_block (blocks e) (currentBlockIndex e) with
    | Some _ =>
        set_editor
          (set_blocks (remove_at (Z.to_nat (currentBlockIndex e)) (blocks e)) e) s
    | None => s
    end).

(** Modelled from the spec: [api.toolbar.toggleBlockSettings(state)],
    the toolbar-settings-visibility command (open/close) of the
    capability handle (6); without an argument it toggles. *)
Definition toggleBlockSettings (openingState : option bool) : M unit :=
  effect (ToggleBlockSettings openingState) ;;
  modify (fun s =>
    set_editor
      (set_blockSettingsOpened
         (match openingState with
          | Some b => b
          | None => negb (blockSettingsOpened (editor s))
          end) (editor s)) s).

(** [window.scrollTo(x, y)]: the request is recorded; how the browser
    clamps it and re-lays the page out is not modelled. *)
Definition scrollTo (x y : JS.number) : M unit :=
  effect (ScrollTo x y).

(** [window.requestIdleCallback(cb, { timeout })]: the callback is
    queued, nothing runs now. *)
Definition requestIdleCallback (cb : IdleCallback) (timeout : Z) : M unit :=
  modify (fun s => set_idleQueue (idleQueue s ++ [(cb, timeout)]) s).

(** Modelled from the spec: [_.isMobileScreen()] is in utils, not in
    the sources; the stylesheet ties it to the media query
    [--mobile (width <= 650px)]. *)
Definition isMobileScreen : M bool :=
  s <- get ;; ret (Qle_bool (innerWidth (window (editor s))) 650).

(** [$.make(tag, className)]: a fresh element with that class. *)
Definition make_element (className : string) : M Dom.Element :=
  s <- get ;;
  modify (set_nextId (S (nextId s))) ;;
  ret (Dom.mkElement (nextId s) [className] "").

(** Modelled from the spec: [Module.removeAllNodes()] is in the base
    module; 4.2 has it tear down all constructed UI nodes. *)
Definition removeAllNodes : M unit :=
  modify (set_nodes (mkNodes None None None None None)).

(** Modelled from the spec: [readOnlyMutableListeners] is in the base
    module: [on] binds a DOM listener that [clearAll] removes with all
    the others (4.2: entering read-only removes every bound handler). *)
Definition readOnlyMutableListeners_on
    (element : option Dom.Element) (type : string) (capture : bool) : M unit :=
  el <- deref element ;;
  modify (fun s =>
    set_listeners (listeners s ++ [OnTogglerMousedown (Dom.eid el) type capture]) s).

(** Modelled from the spec: [readOnlyMutableListeners.clearAll()], see
    [readOnlyMutableListeners_on]. *)
Definition readOnlyMutableListeners_clearAll : M unit :=
  modify (set_listeners []).

(** Modelled from the spec: [eventsDispatcher.on(channel, handler)]
    (4.1) registers a handler; delivery is in registration order. *)
Definition eventsDispatcher_on (channel : string) (h : Subscriber) : M unit :=
  modify (fun s => set_subscriptions (subscriptions s ++ [(channel, h)]) s).

End Collab.

(* ------------------------------------------------------------------ *)
(** ** ConfigToolbar (modules/configToolbar/index.ts) *)

Module ConfigToolbar.

(** [get CSS()] *)
Module CSS.
Definition toolbar := "ce-config-toolbar".
Definition content := "ce-config-toolbar__content".
Definition actions := "ce-config-toolbar__actions".
Definition actionsOpened := "ce-config-toolbar__actions--opened".
Definition toolbarOpened := "ce-config-toolbar--opened".
Definition openedToolboxHolderModifier := "codex-editor--toolbox-opened".
Definition settingsToggler := "ce-config-toolbar__settings-btn".
Definition settingsTogglerHidden := "ce-config-toolbar__settings-btn--hidden".
End CSS.

(** [style.top = v]. CSSOM drops a declaration whose value does not
    parse; of the values this module assigns, only ["NaNpx"] does not. *)
Definition assign_top (v : string) (e : Dom.Element) : Dom.Element :=
  if String.eqb v "NaNpx" then e else Dom.set_style_top v e.

(** [this.nodes.wrapper.<...>]: a TypeError when the node is undefined. *)
Definition on_wrapper (f : Dom.Element -> Dom.Element) : M unit :=
  s <- get ;;
  w <- deref (wrapper (nodes s)) ;;
  modify (fun s => set_nodes (set_wrapper (Some (f w)) (nodes s)) s).

Definition on_actions (f : Dom.Element -> Dom.Element) : M unit :=
  s <- get ;;
  a <- deref (actions (nodes s)) ;;
  modify (fun s => set_nodes (set_actions (Some (f a)) (nodes s)) s).

Definition on_settingsToggler (f : Dom.Element -> Dom.Element) : M unit :=
  s <- get ;;
  t <- deref (settingsToggler (nodes s)) ;;
  modify (fun s => set_nodes (set_settingsToggler (Some (f t)) (nodes s)) s).

Definition classList_add (c : string) (e : Dom.Element) : Dom.Element :=
  Dom.set_classList (Dom.add (Dom.classList e) c) e.

Definition classList_remove (c : string) (e : Dom.Element) : Dom.Element :=
  Dom.set_classList (Dom.remove (Dom.classList e) c) e.

(** [get opened()] *)
Definition opened : M bool :=
  s <- get ;;
  w <- deref (wrapper (nodes s)) ;;
  ret (Dom.contains (Dom.classList w) CSS.toolbarOpened).

(** [blockActions.hide()] and [blockActions.show()] *)
Definition blockActions_hide : M unit :=
  on_actions (classList_remove CSS.actionsOpened).

Definition blockActions_show : M unit :=
  on_actions (classList_add CSS.actionsOpened).

(** [blockTunesToggler.hide()] and [blockTunesToggler.show()] *)
Definition blockTunesToggler_hide : M unit :=
  on_settingsToggler (classList_add CSS.settingsTogglerHidden).

Definition blockTunesToggler_show : M unit :=
  on_settingsToggler (classList_remove CSS.settingsTogglerHidden).

(** [make()] *)
Definition make : M unit :=
  w <- Collab.make_element CSS.toolbar ;;
  modify (fun s => set_nodes (set_wrapper (Some w) (nodes s)) s) ;;
  c <- Collab.make_element CSS.content ;;
  modify (fun s => set_nodes (set_content (Some c) (nodes s)) s) ;;
  a <- Collab.make_element CSS.actions ;;
  modify (fun s => set_nodes (set_actions (Some a) (nodes s)) s) ;;
  t <- Collab.make_element CSS.settingsToggler ;;
  modify (fun s => set_nodes (set_settingsToggler (Some t) (nodes s)) s) ;;
  effect (TooltipOnHover (Dom.eid t) 400) ;;
  effect (AppendToEditor (Dom.eid w)).

(** [drawUI()] *)
Definition drawUI : M unit := make.

(** [destroy()] *)
Definition destroy : M unit := Collab.removeAllNodes.

(** [reset()] *)
Definition reset : M unit :=
  on_wrapper (assign_top "unset").

(** [open(withBlockActions = true)] *)
Definition open (withBlockActions : bool) : M unit :=
  on_wrapper (classList_add CSS.toolbarOpened) ;;
  if withBlockActions then blockActions_show else blockActions_hide.

(** The [toolbarY] that [moveAndOpen] computes for a block. *)
Definition toolbarY (isMobile : bool) (block : Block) : JS.number :=
  let targetBlockHolder := holder block in
  let blockRenderedElementPaddingTop := JS.parseInt (paddingTop block) in
  let blockHeight := JS.Num (offsetHeight targetBlockHolder) in
  if isMobile
  then JS.add (JS.Num (offsetTop targetBlockHolder)) blockHeight
  else JS.add (JS.Num (offsetTop targetBlockHolder)) blockRenderedElementPaddingTop.

(** [moveAndOpen(block = this.Editor.BlockManager.currentBlock)];
    [None] is a call without the argument. *)
Definition moveAndOpen (arg : option Block) : M unit :=
  s <- get ;;
  let block :=
    match arg with
    | Some b => Some b
    | None => Collab.currentBlock (editor s)
    end in
  match block, wrapper (nodes s) with
  | Some block, Some _ =>
      modify (set_hoveredBlock (Some block)) ;;
      let toolbarY := toolbarY (isMobile (editor s)) block in
      on_wrapper (assign_top (JS.toString (JS.Math_floor toolbarY) ++ "px")) ;;
      (if (Nat.eqb (length (blocks (editor s))) 1 && isEmpty block)%bool
       then blockTunesToggler_hide
       else blockTunesToggler_show) ;;
      open true
  | _, _ => ret tt
  end.

(** [close()] *)
Definition close : M unit :=
  s <- get ;;
  if readOnly_isEnabled (editor s) then ret tt
  else
    (match wrapper (nodes s) with
     | Some w =>
         modify (fun s =>
           set_nodes (set_wrapper (Some (classList_remove CSS.toolbarOpened w)) (nodes s)) s)
     | None => ret tt
     end) ;;
    blockActions_hide ;;
    reset.

(** Modelled from the spec: [eventsDispatcher.emit(channel, payload)]
    is not in the sources; 4.1 has it call every handler registered
    for the channel, synchronously and in registration order, an
    exception of a handler reaching the caller. The only handler this
    module registers is the one of "block hovered". *)
Fixpoint deliver (subs : list (string * Subscriber)) (channel : string)
    (payload : option Block) : M unit :=
  match subs with
  | [] => ret tt
  | (c, OnBlockHovered) :: r =>
      (if String.eqb c channel then moveAndOpen payload else ret tt) ;;
      deliver r channel payload
  end.

Definition emit (channel : string) (payload : option Block) : M unit :=
  effect (Emit channel payload) ;;
  s <- get ;;
  deliver (subscriptions s) channel payload.

(** [emitBlockSettingsClicked(block)] *)
Definition emitBlockSettingsClicked (block : option Block) : M unit :=
  emit SettingsClicked block.

(** [activate(block)] *)
Definition activate (block : Block) : M unit :=
  emitBlockSettingsClicked (Some block).

(** [settingsToggleClicked()] *)
Definition settingsToggleClicked : M unit :=
  s <- get ;;
  Collab.set_currentBlock (hoveredBlock s) ;;
  s <- get ;;
  emitBlockSettingsClicked (hoveredBlock s).

(** The mousedown closure bound to the settings toggler. *)
Definition togglerMousedown : M unit :=
  effect StopPropagation ;;
  settingsToggleClicked ;;
  effect (TooltipHide true).

(** [enableModuleBindings()] *)
Definition enableModuleBindings : M unit :=
  s <- get ;;
  Collab.readOnlyMutableListeners_on (settingsToggler (nodes s)) "mousedown" true ;;
  mobile <- Collab.isMobileScreen ;;
  if negb mobile
  then Collab.eventsDispatcher_on BlockHovered OnBlockHovered
  else ret tt.

(** [disableModuleBindings()] *)
Definition disableModuleBindings : M unit :=
  Collab.readOnlyMutableListeners_clearAll.

(** [toggleReadOnly(readOnlyEnabled)] *)
Definition toggleReadOnly (readOnlyEnabled : bool) : M unit :=
  s <- get ;;
  if (negb readOnlyEnabled && negb (JS.nullish (hideConfigToolbar s) true))%bool
  then Collab.requestIdleCallback RebuildUI 2000
  else
    destroy ;;
    disableModuleBindings.

(** *** What the event loop does with what the module registered *)

Definition run_idle (cb : IdleCallback) : M unit :=
  match cb with
  | RebuildUI => drawUI ;; enableModuleBindings
  end.

(** The browser runs the oldest pending idle callback. *)
Definition runIdle : M unit :=
  s <- get ;;
  match idleQueue s with
  | [] => ret tt
  | (cb, _) :: q => modify (set_idleQueue q) ;; run_idle cb
  end.

(** A collaborator emits "block hovered" for a block. *)
Definition hover (b : Block) : M unit :=
  emit BlockHovered (Some b).

(** An event of type [type] reaches the element [target]: its
    listeners run in the order they were bound. *)
Fixpoint dispatch (ls : list Listener) (target : nat) (type : string) : M unit :=
  match ls with
  | [] => ret tt
  | OnTogglerMousedown t ty _ :: r =>
      (if (Nat.eqb t target && String.eqb ty type)%bool then togglerMousedown else ret tt) ;;
      dispatch r target type
  end.

(** The user presses the mouse on the settings toggler. *)
Definition clickSettingsToggler : M unit :=
  s <- get ;;
  match settingsToggler (nodes s) with
  | Some t => dispatch (listeners s) (Dom.eid t) "mousedown"
  | None => ret tt
  end.

(** The state a fresh module starts in: no node made, nothing bound. *)
Definition init (cfg : option bool) (e : Editor) : State :=
  mkState cfg (mkNodes None None None None None) None [] [] [] 0%nat e [].

(** *** The spec's view of the state (3, ToolbarState) *)

Definition has_class (o : option Dom.Element) (c : string) : bool :=
  match o with
  | Some e => Dom.contains (Dom.classList e) c
  | None => false
  end.

Definition isOpened (s : State) : bool :=
  has_class (wrapper (nodes s)) CSS.toolbarOpened.

Definition actionsVisible (s : State) : bool :=
  has_class (actions (nodes s)) CSS.actionsOpened.

Definition settingsTogglerVisible (s : State) : bool :=
  negb (has_class (settingsToggler (nodes s)) CSS.settingsTogglerHidden).

Definition verticalOffset (s : State) : option string :=
  option_map Dom.style_top (wrapper (nodes s)).

End ConfigToolbar.

(* ------------------------------------------------------------------ *)
(** ** The tunes *)

(** An [onActivate] closure of a menu entry. *)
Inductive Callback : Type :=
| MoveDown_handleClick
| Delete_handleClick.

(** A text that went through [api.i18n.t]. *)
Inductive Text : Type :=
| I18n_t (key : string).

Record Confirmation : Type := mkConfirmation {
  c_title : Text;
  c_onActivate : Callback
}.

(** [TunesMenuConfig], the entry a tune renders; the [icon] markup is
    left out. *)
Record TunesMenuConfig : Type := mkTunesMenuConfig {
  title : Text;
  name : string;
  onActivate : option Callback;
  isDisabled : option bool;
  confirmation : option Confirmation
}.

Module MoveDownTune.

Definition isTune : bool := true.

(** [render()] *)
Definition render : M TunesMenuConfig :=
  ret (mkTunesMenuConfig (I18n_t "Move down") "move-down"
         (Some MoveDown_handleClick) None None).

Definition boundary : Error :=
  ErrorMsg "Unable to move Block down since it is already the last".

(** The scroll offset [handleClick] asks for, given the next block. *)
Definition scrollOffset (w : Window) (nextBlock : Block) : JS.number :=
  let nextBlockElement := holder nextBlock in
  let scrollOffset :=
    JS.Math_abs (JS.sub (JS.Num (innerHeight w)) (JS.Num (offsetHeight nextBlockElement))) in
  if JS.lt (JS.Num (rect_top nextBlockElement)) (JS.Num (innerHeight w))
  then JS.add (JS.Num (scrollY w)) (JS.Num (offsetHeight nextBlockElement))
  else scrollOffset.

(** [handleClick()] *)
Definition handleClick : M unit :=
  currentBlockIndex <- Collab.getCurrentBlockIndex ;;
  nextBlock <- Collab.getBlockByIndex (currentBlockIndex + 1) ;;
  match nextBlock with
  | None => throw boundary
  | Some nextBlock =>
      s <- get ;;
      Collab.scrollTo (JS.of_Z 0) (scrollOffset (window (editor s)) nextBlock) ;;
      Collab.move (currentBlockIndex + 1) ;;
      Collab.toggleBlockSettings (Some true)
  end.

End MoveDownTune.

Module DeleteTune.

Definition isTune : bool := true.

(** [handleClick()] *)
Definition handleClick : M unit := Collab.delete.

(** [render()] *)
Definition render : M TunesMenuConfig :=
  i <- Collab.getCurrentBlockIndex ;;
  b <- Collab.getBlockByIndex i ;;
  b <- deref b ;;
  ret (mkTunesMenuConfig (I18n_t "Delete") "delete" None
         (Some (negb (editable b)))
         (Some (mkConfirmation (I18n_t "Click to delete") Delete_handleClick))).

End DeleteTune.

Module SettingsPanel.

Definition run (cb : Callback) : M unit :=
  match cb with
  | MoveDown_handleClick => MoveDownTune.handleClick
  | Delete_handleClick => DeleteTune.handleClick
  end.

(** Modelled from the spec: the Settings Panel that shows the entries
    and activates them is an external collaborator, not in the sources.
    By 3 and 4.3 an entry with a [confirmation] sub-descriptor needs a
    second, confirming activation: the first one arms the
    sub-descriptor (the entry now shows its title and carries its
    [onActivate]) and calls nothing; an entry without one calls its
    [onActivate]. The result is the entry as the panel shows it next. *)
Definition activate (item : TunesMenuConfig) : M TunesMenuConfig :=
  match confirmation item with
  | Some c =>
      ret (mkTunesMenuConfig (c_title c) (name item) (Some (c_onActivate c))
             (isDisabled item) None)
  | None =>
      match onActivate item with
      | Some cb => run cb ;; ret item
      | None => ret item
      end
  end.

End SettingsPanel.

(* ------------------------------------------------------------------ *)
(** ** Runs of the toolbar *)

(** What can happen to the toolbar: calls of its methods, the event loop
    running what it registered, and the other modules changing their
    own state. *)
Inductive Op : Type :=
| OpMoveAndOpen (arg : option Block)
| OpOpen (withBlockActions : bool)
| OpClose
| OpActivate (b : Block)
| OpToggleReadOnly (readOnlyEnabled : bool)
| OpRunIdle
| OpHover (b : Block)
| OpClickSettingsToggler
| OpEditor (e : Editor).

Definition exec (o : Op) (s : State) : State :=
  match o with
  | OpMoveAndOpen arg => final (ConfigToolbar.moveAndOpen arg s)
  | OpOpen b => final (ConfigToolbar.open b s)
  | OpClose => final (ConfigToolbar.close s)
  | OpActivate b => final (ConfigToolbar.activate b s)
  | OpToggleReadOnly b => final (ConfigToolbar.toggleReadOnly b s)
  | OpRunIdle => final (ConfigToolbar.runIdle s)
  | OpHover b => final (ConfigToolbar.hover b s)
  | OpClickSettingsToggler => final (ConfigToolbar.clickSettingsToggler s)
  | OpEditor e => set_editor e s
  end.

Definition run (ops : list Op) (s : State) : State :=
  fold_left (fun s o => exec o s) ops s.

Inductive reachable : State -> Prop :=
| reach_init cfg e : reachable (ConfigToolbar.init cfg e)
| reach_step o s : reachable s -> reachable (exec o s).

(** The nodes are all there (the UI is built). *)
Definition built (s : State) : Prop :=
  wrapper (nodes s) <> None /\ actions (nodes s) <> None
  /\ settingsToggler (nodes s) <> None.

(* ------------------------------------------------------------------ *)
(** ** Predicates of the statements *)

(** The number a decimal numeral denotes when read after the digits
    that gave [acc]. *)
Fixpoint uint_value (d : Decimal.uint) (acc : Z) : Z :=
  match d with
  | Decimal.Nil => acc
  | Decimal.D0 d => uint_value d (10 * acc + 0)
  | Decimal.D1 d => uint_value d (10 * acc + 1)
  | Decimal.D2 d => uint_value d (10 * acc + 2)
  | Decimal.D3 d => uint_value d (10 * acc + 3)
  | Decimal.D4 d => uint_value d (10 * acc + 4)
  | Decimal.D5 d => uint_value d (10 * acc + 5)
  | Decimal.D6 d => uint_value d (10 * acc + 6)
  | Decimal.D7 d => uint_value d (10 * acc + 7)
  | Decimal.D8 d => uint_value d (10 * acc + 8)
  | Decimal.D9 d => uint_value d (10 * acc + 9)
  end.

(** The identity of the settings toggler the module holds. *)
Definition toggler_id (s : State) : option nat :=
  option_map Dom.eid (settingsToggler (nodes s)).

(** The element a listener is bound to. *)
Definition target_of (l : Listener) : nat :=
  match l with
  | OnTogglerMousedown t _ _ => t
  end.

(** No element has two listeners, every bound element was made by this
    module, and the toggler the module holds has its mousedown bound. *)
Definition binding_inv (s : State) : Prop :=
  NoDup (map target_of (listeners s))
  /\ Forall (fun l => (target_of l < nextId s)%nat) (listeners s)
  /\ (forall t, toggler_id s = Some t ->
                 (t < nextId s)%nat
                 /\ In (OnTogglerMousedown t "mousedown" true) (listeners s)).

(** What [moveAndOpen] does to the toggler, and the text it assigns to
    [style.top] of the wrapper, for a block in a state. *)
Definition toggler_step (s : State) (b : Block) : Dom.Element -> Dom.Element :=
  if (Nat.eqb (length (blocks (editor s))) 1 && isEmpty b)%bool
  then ConfigToolbar.classList_add ConfigToolbar.CSS.settingsTogglerHidden
  else ConfigToolbar.classList_remove ConfigToolbar.CSS.settingsTogglerHidden.

Definition top_text (s : State) (b : Block) : string :=
  (JS.toString (JS.Math_floor (ConfigToolbar.toolbarY (isMobile (editor s)) b))
   ++ "px")%string.

(** The state [moveAndOpen] leaves for a block on a toolbar with the
    wrapper [w], the actions [a] and the toggler [t]. *)
Definition moved (s : State) (b : Block) (w a t : Dom.Element) : State :=
  set_nodes
    (mkNodes
       (Some (ConfigToolbar.classList_add ConfigToolbar.CSS.toolbarOpened
                (ConfigToolbar.assign_top (top_text s b) w)))
       (content (nodes s))
       (Some (ConfigToolbar.classList_add ConfigToolbar.CSS.actionsOpened a))
       (plusButton (nodes s))
       (Some (toggler_step s b t)))
    (set_hoveredBlock (Some b) s).

(** The state [close] leaves, outside read-only mode, on a toolbar with
    the wrapper [w] and the actions [a]. *)
Definition closed (s : State) (w a : Dom.Element) : State :=
  set_nodes
    (mkNodes
       (Some (ConfigToolbar.assign_top "unset"
                (ConfigToolbar.classList_remove ConfigToolbar.CSS.toolbarOpened w)))
       (content (nodes s))
       (Some (ConfigToolbar.classList_remove ConfigToolbar.CSS.actionsOpened a))
       (plusButton (nodes s))
       (settingsToggler (nodes s)))
    s.

(** A method keeps [P], whether it returns or throws. *)
Definition preserves (P : State -> Prop) {A} (m : M A) : Prop :=
  forall s, P s -> P (final (m s)).

(** Actions are visible only in an opened toolbar. *)
Definition shell_invariant (s : State) : Prop :=
  ConfigToolbar.actionsVisible s = true -> ConfigToolbar.isOpened s = true.

(** A property that only the nodes decide. *)
Definition nodes_only (P : State -> Prop) : Prop :=
  forall s s', nodes s' = nodes s -> P s -> P s'.

(** Every subscription the module holds is one to "block hovered". *)
Definition hover_only (s : State) : Prop :=
  Forall (fun p => fst p = BlockHovered) (subscriptions s).

(* ================================================================== *)
(** * Properties *)

Import ConfigToolbar.
Local Open Scope list_scope.

(** ** Small facts about the model *)

Example parseInt_8px : JS.parseInt "8px" = JS.of_Z 8.
Proof. reflexivity. Qed.

Example parseInt_fraction : JS.parseInt "8.5px" = JS.of_Z 8.
Proof. reflexivity. Qed.

Example parseInt_empty : JS.parseInt "" = JS.NaN.
Proof. reflexivity. Qed.

Example toString_128 : JS.toString (Some 128) = "128".
Proof. reflexivity. Qed.

Lemma string_of_Z_px_not_NaN (z : Z) :
  String.eqb (JS.string_of_Z z ++ "px")%string "NaNpx" = false.
Proof.
  unfold JS.string_of_Z.
  destruct (Z.to_int z) as [u | u]; destruct u; reflexivity.
Qed.

(** *** [parseInt] reads back the decimal text of a natural number *)

Lemma read_digits_uint (d : Decimal.uint) (rest : string) (acc : option Z) :
  d <> Decimal.Nil ->
  JS.read_digits (NilEmpty.string_of_uint d ++ rest)%string acc
  = JS.read_digits rest
      (Some (uint_value d (match acc with Some a => a | None => 0 end))).
Proof.
  revert acc. induction d; intros acc Hd; [congruence | ..];
    cbn [NilEmpty.string_of_uint String.append uint_value JS.read_digits];
    match goal with
    | |- context [JS.digit_of ?c] =>
        let v := eval vm_compute in (JS.digit_of c) in
        change (JS.digit_of c) with v
    end; cbv iota;
    (destruct d; [reflexivity | rewrite IHd by discriminate; reflexivity ..]).
Qed.

Lemma uint_value_pos (d : Decimal.uint) (p : positive) :
  uint_value d (Z.pos p) = Z.pos (Pos.of_uint_acc d p).
Proof.
  revert p. induction d; intros p; cbn [uint_value Pos.of_uint_acc];
    [reflexivity | ..]; rewrite <- IHd; f_equal; lia.
Qed.

Lemma uint_value_0 (d : Decimal.uint) :
  uint_value d 0 = Z.of_N (Pos.of_uint d).
Proof.
  induction d; cbn [uint_value Pos.of_uint]; try reflexivity; try exact IHd;
    cbn [Z.mul Z.add]; apply uint_value_pos.
Qed.

Lemma read_digits_some (s : string) (a : Z) : JS.read_digits s (Some a) <> None.
Proof.
  revert a. induction s as [| c r IH]; intros a; cbn [JS.read_digits];
    [discriminate |].
  destruct (JS.digit_of c); [apply IH | discriminate].
Qed.

Lemma read_digits_stop (rest : string) (acc : option Z) :
  JS.read_digits rest None = None -> JS.read_digits rest acc = acc.
Proof.
  destruct rest as [| c r]; cbn [JS.read_digits]; [reflexivity |].
  destruct (JS.digit_of c); [| reflexivity].
  intros H. now apply read_digits_some in H.
Qed.

(** The text of [n >= 0] followed by anything that does not start with
    a digit ("px", ".5px") parses to [n]. *)
Lemma parseInt_decimal (n : Z) (rest : string) :
  0 <= n ->
  JS.read_digits rest None = None ->
  JS.parseInt (JS.string_of_Z n ++ rest)%string = JS.of_Z n.
Proof.
  intros Hn Hrest. unfold JS.string_of_Z.
  assert (H : exists d,
             d <> Decimal.Nil
             /\ NilZero.string_of_int (Z.to_int n) = NilEmpty.string_of_uint d
             /\ uint_value d 0 = n).
  { destruct n as [| p | p]; [| | lia].
    - exists (Decimal.D0 Decimal.Nil). repeat split. discriminate.
    - exists (Pos.to_uint p).
      split; [apply DecimalPos.Unsigned.to_uint_nonnil |]. split.
      + cbn [Z.to_int NilZero.string_of_int]. unfold NilZero.string_of_uint.
        pose proof (DecimalPos.Unsigned.to_uint_nonnil p).
        now destruct (Pos.to_uint p).
      + rewrite uint_value_0, DecimalPos.Unsigned.of_to. reflexivity. }
  destruct H as (d & Hd & -> & Hv).
  unfold JS.parseInt.
  set (txt := (NilEmpty.string_of_uint d ++ rest)%string).
  assert (Hs : exists c r,
             txt = String c r /\ JS.is_white c = false
             /\ c <> "-"%char /\ c <> "+"%char).
  { subst txt. destruct d; [congruence | ..];
      cbn [NilEmpty.string_of_uint String.append];
      eexists _, _; (split; [reflexivity |]); (split; [reflexivity |]);
      split; discriminate. }
  destruct Hs as (c & r & Hs & Hw & Hm & Hp).
  assert (Hsk : JS.skip_white txt = txt).
  { rewrite Hs. cbn [JS.skip_white]. now rewrite Hw. }
  rewrite Hsk.
  assert (Hsign :
    (let '(sign, s) :=
       match txt with
       | String "-" r => (-1, r)
       | String "+" r => (1, r)
       | _ => (1, txt)
       end in
     match JS.read_digits s None with
     | Some n => JS.of_Z (sign * n)
     | None => JS.NaN
     end)
    = match JS.read_digits txt None with
      | Some n => JS.of_Z (1 * n)
      | None => JS.NaN
      end).
  { rewrite Hs at 1.
    destruct c as [[] [] [] [] [] [] [] []]; try reflexivity; congruence. }
  etransitivity; [exact Hsign |].
  subst txt. rewrite read_digits_uint by exact Hd.
  rewrite read_digits_stop by exact Hrest. rewrite Hv. now rewrite Z.mul_1_l.
Qed.

Lemma assign_top_px (z : Z) (e : Dom.Element) :
  Dom.style_top (assign_top (JS.toString (Some z) ++ "px")%string e)
  = (JS.string_of_Z z ++ "px")%string.
Proof.
  unfold assign_top. simpl JS.toString.
  now rewrite string_of_Z_px_not_NaN.
Qed.

Lemma contains_add (l : list string) (c : string) :
  Dom.contains (Dom.add l c) c = true.
Proof.
  unfold Dom.add. destruct (Dom.contains l c) eqn:E; [exact E |].
  unfold Dom.contains. rewrite existsb_app. simpl.
  rewrite String.eqb_refl. now rewrite orb_true_r.
Qed.

Lemma contains_remove (l : list string) (c : string) :
  Dom.contains (Dom.remove l c) c = false.
Proof.
  unfold Dom.contains, Dom.remove.
  induction l as [| x l IH]; simpl; [reflexivity |].
  destruct (String.eqb c x) eqn:E; simpl; [exact IH |].
  now rewrite E.
Qed.

Lemma nth_block_app (pre : list Block) (b : Block) (post : list Block) :
  Collab.nth_block (pre ++ b :: post) (Z.of_nat (length pre)) = Some b.
Proof.
  unfold Collab.nth_block.
  destruct (Z.ltb_spec (Z.of_nat (length pre)) 0) as [E | E]; [lia |].
  rewrite Nat2Z.id. rewrite nth_error_app2 by lia.
  now rewrite Nat.sub_diag.
Qed.

Lemma nth_block_length (l : list Block) :
  Collab.nth_block l (Z.of_nat (length l)) = None.
Proof.
  unfold Collab.nth_block.
  destruct (Z.of_nat (length l) <? 0); [reflexivity |].
  rewrite Nat2Z.id. apply nth_error_None. lia.
Qed.

Lemma remove_at_app (pre : list Block) (b : Block) (post : list Block) :
  Collab.remove_at (length pre) (pre ++ b :: post) = pre ++ post.
Proof.
  induction pre as [| x pre IH]; simpl; [reflexivity | now rewrite IH].
Qed.

Lemma insert_at_app (pre : list Block) (b : Block) (post : list Block) :
  Collab.insert_at (length pre) b (pre ++ post) = pre ++ b :: post.
Proof.
  induction pre as [| x pre IH]; simpl.
  - now destruct post.
  - now rewrite IH.
Qed.


(* ------------------------------------------------------------------ *)
(** ** Reasoning about methods *)

Ltac msimpl :=
  unfold isOpened, actionsVisible, settingsTogglerVisible, verticalOffset in *;
  cbn [bind get modify ret throw deref effect final
       nodes hoveredBlock listeners subscriptions idleQueue nextId editor trace
       hideConfigToolbar
       set_nodes set_hoveredBlock set_listeners set_subscriptions set_idleQueue
       set_nextId set_editor set_trace
       wrapper content actions plusButton settingsToggler
       set_wrapper set_content set_actions set_settingsToggler
       blocks currentBlockIndex isMobile readOnly_isEnabled window blockSettingsOpened
       set_blocks set_currentBlockIndex set_blockSettingsOpened
       Dom.eid Dom.classList Dom.style_top Dom.set_classList Dom.set_style_top
       classList_add classList_remove has_class option_map
       isOpened actionsVisible settingsTogglerVisible verticalOffset] in *.

(** Runs the binds of a method applied to a state. *)
Ltac mrun :=
  unfold bind, get, modify, ret, throw, deref, effect; msimpl.

Section Preservation.

Variable P : State -> Prop.

Lemma preserves_ret {A} (a : A) : preserves P (ret a).
Proof. intros s H. exact H. Qed.

Lemma preserves_throw {A} (e : Error) : preserves P (@throw A e).
Proof. intros s H. exact H. Qed.

Lemma preserves_get : preserves P get.
Proof. intros s H. exact H. Qed.

Lemma preserves_deref {A} (o : option A) : preserves P (deref o).
Proof. intros s H. destruct o; exact H. Qed.

Lemma preserves_modify (f : State -> State) :
  (forall s, P s -> P (f s)) -> preserves P (modify f).
Proof. intros Hf s H. apply Hf, H. Qed.

Lemma preserves_bind {A B} (m : M A) (k : A -> M B) :
  preserves P m -> (forall a, preserves P (k a)) -> preserves P (bind m k).
Proof.
  intros Hm Hk s H. unfold bind.
  specialize (Hm s H). destruct (m s) as [a s' | e s']; msimpl.
  - apply Hk, Hm.
  - exact Hm.
Qed.

Lemma preserves_if {A} (c : bool) (m1 m2 : M A) :
  preserves P m1 -> preserves P m2 -> preserves P (if c then m1 else m2).
Proof. destruct c; auto. Qed.

Lemma preserves_on_wrapper (f : Dom.Element -> Dom.Element) :
  (forall s w, wrapper (nodes s) = Some w -> P s ->
               P (set_nodes (set_wrapper (Some (f w)) (nodes s)) s)) ->
  preserves P (on_wrapper f).
Proof.
  intros Hf s H. unfold on_wrapper, bind, get.
  destruct (wrapper (nodes s)) as [w |] eqn:E; msimpl; [| exact H].
  apply Hf; assumption.
Qed.

Lemma preserves_on_actions (f : Dom.Element -> Dom.Element) :
  (forall s a, actions (nodes s) = Some a -> P s ->
               P (set_nodes (set_actions (Some (f a)) (nodes s)) s)) ->
  preserves P (on_actions f).
Proof.
  intros Hf s H. unfold on_actions, bind, get.
  destruct (actions (nodes s)) as [a |] eqn:E; msimpl; [| exact H].
  apply Hf; assumption.
Qed.

Lemma preserves_on_settingsToggler (f : Dom.Element -> Dom.Element) :
  (forall s t, settingsToggler (nodes s) = Some t -> P s ->
               P (set_nodes (set_settingsToggler (Some (f t)) (nodes s)) s)) ->
  preserves P (on_settingsToggler f).
Proof.
  intros Hf s H. unfold on_settingsToggler, bind, get.
  destruct (settingsToggler (nodes s)) as [t |] eqn:E; msimpl; [| exact H].
  apply Hf; assumption.
Qed.

End Preservation.

(** The three steps of [moveAndOpen] after its guard. *)
Lemma moveAndOpen_run (s : State) (b : Block) (w : Dom.Element) :
  wrapper (nodes s) = Some w ->
  moveAndOpen (Some b) s
  = ((if (Nat.eqb (length (blocks (editor s))) 1 && isEmpty b)%bool
      then blockTunesToggler_hide else blockTunesToggler_show) ;;
     open true)
      (set_nodes
         (set_wrapper
            (Some (assign_top
                     (JS.toString (JS.Math_floor (toolbarY (isMobile (editor s)) b)) ++ "px")%string
                     w))
            (nodes s))
         (set_hoveredBlock (Some b) s)).
Proof.
  intros E. unfold moveAndOpen, on_wrapper. mrun. rewrite E. mrun.
  rewrite E. reflexivity.
Qed.

Lemma open_keeps_offset (v : option string) (withBlockActions : bool) :
  preserves (fun s => verticalOffset s = v) (open withBlockActions).
Proof.
  unfold open. apply preserves_bind.
  - apply preserves_on_wrapper. intros s w E H. msimpl. now rewrite E in H.
  - intros _. apply preserves_if; apply preserves_on_actions;
      intros s a E H; msimpl; exact H.
Qed.

Lemma toggler_keeps_offset (v : option string) (f : Dom.Element -> Dom.Element) :
  preserves (fun s => verticalOffset s = v) (on_settingsToggler f).
Proof.
  apply preserves_on_settingsToggler. intros s t E H. msimpl. exact H.
Qed.

(* ------------------------------------------------------------------ *)
(** ** Positioning *)

(** C1. When [moveAndOpen] is given a block and the wrapper exists, the
    offset applied to the wrapper is, on a mobile viewport, the floor of
    the holder's top offset plus the holder's height, and on a desktop
    viewport the floor of the holder's top offset plus the padding-top
    read from the rendered content, both printed in pixels; a computed
    padding-top that prints a natural number [n] before its unit or its
    fraction is read as [n]. *)
Theorem moveAndOpen_vertical_offset (s : State) (b : Block) :
  wrapper (nodes s) <> None ->
  let s' := final (moveAndOpen (Some b) s) in
  (isMobile (editor s) = true ->
   verticalOffset s'
   = Some (JS.string_of_Z (Qfloor (offsetTop (holder b) + offsetHeight (holder b))) ++ "px")%string)
  /\
  (isMobile (editor s) = false ->
   forall p : Z,
     JS.parseInt (paddingTop b) = JS.of_Z p ->
     verticalOffset s'
     = Some (JS.string_of_Z (Qfloor (offsetTop (holder b) + inject_Z p)) ++ "px")%string)
  /\
  (isMobile (editor s) = false ->
   forall (n : Z) (rest : string),
     0 <= n ->
     JS.read_digits rest None = None ->
     paddingTop b = (JS.string_of_Z n ++ rest)%string ->
     verticalOffset s'
     = Some (JS.string_of_Z (Qfloor (offsetTop (holder b) + inject_Z n)) ++ "px")%string).
Proof.
  intros Hw s'. subst s'.
  destruct (wrapper (nodes s)) as [w |] eqn:Ew; [clear Hw | congruence].
  rewrite (moveAndOpen_run s b w Ew).
  assert (Hrest : forall v,
    preserves (fun s => verticalOffset s = v)
      ((if (Nat.eqb (length (blocks (editor s))) 1 && isEmpty b)%bool
        then blockTunesToggler_hide else blockTunesToggler_show) ;; open true)).
  { intros v. apply preserves_bind.
    - apply preserves_if; apply toggler_keeps_offset.
    - intros _. apply open_keeps_offset. }
  assert (Hdesk : isMobile (editor s) = false ->
    forall p : Z,
      JS.parseInt (paddingTop b) = JS.of_Z p ->
      verticalOffset
        (final
           (((if (Nat.eqb (length (blocks (editor s))) 1 && isEmpty b)%bool
              then blockTunesToggler_hide else blockTunesToggler_show) ;; open true)
              (set_nodes
                 (set_wrapper
                    (Some (assign_top
                             (JS.toString
                                (JS.Math_floor (toolbarY (isMobile (editor s)) b)) ++ "px")%string
                             w))
                    (nodes s))
                 (set_hoveredBlock (Some b) s))))
      = Some (JS.string_of_Z (Qfloor (offsetTop (holder b) + inject_Z p)) ++ "px")%string).
  { intros Hm p Hp. apply Hrest. msimpl. rewrite Hm. unfold toolbarY.
    rewrite Hp. cbn [JS.add JS.Math_floor JS.of_Z]. now rewrite assign_top_px. }
  split; [| split].
  - intros Hm. apply Hrest. msimpl. rewrite Hm. unfold toolbarY.
    cbn [JS.add JS.Math_floor]. now rewrite assign_top_px.
  - exact Hdesk.
  - intros Hm n rest Hn Hr Hp. apply (Hdesk Hm).
    rewrite Hp. now apply parseInt_decimal.
Qed.

(** The two scenarios of the spec: top 120 and height 40 on mobile give
    160; top 120 and padding-top 8px on desktop give 128, and so does a
    padding-top of 8.5px. *)
Lemma moveAndOpen_vertical_offset_witness :
  let w := mkWindow 800 1024 0 in
  let blk := mkBlock 0 (mkHolder 120 40 300) "8px" false true in
  let blk' := mkBlock 1 (mkHolder 120 40 300) "8.5px" false true in
  let bare := mkNodes (Some (Dom.mkElement 0 [CSS.toolbar] "")) None None None None in
  let mobile :=
    mkState (Some false) bare None [] [] [] 1%nat (mkEditor [blk] 0 true false w false) [] in
  let desktop :=
    mkState (Some false) bare None [] [] [] 1%nat (mkEditor [blk] 0 false false w false) [] in
  verticalOffset (final (moveAndOpen (Some blk) mobile)) = Some "160px"
  /\ verticalOffset (final (moveAndOpen (Some blk) desktop)) = Some "128px"
  /\ verticalOffset (final (moveAndOpen (Some blk') desktop)) = Some "128px".
Proof.
  intros w blk blk' bare mobile desktop. split; [| split].
  - apply (proj1 (moveAndOpen_vertical_offset mobile blk ltac:(discriminate))).
    reflexivity.
  - apply (proj1 (proj2 (moveAndOpen_vertical_offset desktop blk ltac:(discriminate)))
             eq_refl 8 eq_refl).
  - apply (proj2 (proj2 (moveAndOpen_vertical_offset desktop blk' ltac:(discriminate)))
             eq_refl 8 ".5px"%string); [lia | reflexivity | reflexivity].
Defined.

(* ------------------------------------------------------------------ *)
(** ** Single steps on the nodes *)

Lemma bind_run {A B} (m : M A) (k : A -> M B) (s s' : State) (a : A) :
  m s = Ok a s' -> bind m k s = k a s'.
Proof. intros H. unfold bind. now rewrite H. Qed.

Lemma on_wrapper_run (f : Dom.Element -> Dom.Element) (s : State) (w : Dom.Element) :
  wrapper (nodes s) = Some w ->
  on_wrapper f s = Ok tt (set_nodes (set_wrapper (Some (f w)) (nodes s)) s).
Proof. intros E. unfold on_wrapper. mrun. now rewrite E. Qed.

Lemma on_actions_run (f : Dom.Element -> Dom.Element) (s : State) (a : Dom.Element) :
  actions (nodes s) = Some a ->
  on_actions f s = Ok tt (set_nodes (set_actions (Some (f a)) (nodes s)) s).
Proof. intros E. unfold on_actions. mrun. now rewrite E. Qed.

Lemma on_settingsToggler_run (f : Dom.Element -> Dom.Element) (s : State) (t : Dom.Element) :
  settingsToggler (nodes s) = Some t ->
  on_settingsToggler f s
  = Ok tt (set_nodes (set_settingsToggler (Some (f t)) (nodes s)) s).
Proof. intros E. unfold on_settingsToggler. mrun. now rewrite E. Qed.

Lemma on_actions_absent (f : Dom.Element -> Dom.Element) (s : State) :
  actions (nodes s) = None -> on_actions f s = Throw TypeError s.
Proof. intros E. unfold on_actions. mrun. now rewrite E. Qed.

Lemma open_keeps_toggler (x : option Dom.Element) (withBlockActions : bool) :
  preserves (fun s => settingsToggler (nodes s) = x) (open withBlockActions).
Proof.
  unfold open. apply preserves_bind.
  - apply preserves_on_wrapper. intros s w E H. msimpl. exact H.
  - intros _. apply preserves_if; apply preserves_on_actions;
      intros s a E H; msimpl; exact H.
Qed.

(* ------------------------------------------------------------------ *)
(** ** Calls before the UI is built *)

(** [moveAndOpen] returns at once, changing nothing, when no block is
    given and there is no current one, or when the wrapper is absent. *)
Lemma moveAndOpen_noop (s : State) (arg : option Block) :
  (arg = None /\ Collab.currentBlock (editor s) = None)
  \/ wrapper (nodes s) = None ->
  moveAndOpen arg s = Ok tt s.
Proof.
  intros [[Ha Hc] | Hw]; unfold moveAndOpen; mrun.
  - subst arg. now rewrite Hc.
  - rewrite Hw. now destruct arg, (Collab.currentBlock (editor s)).
Qed.

(** In read-only mode [close] returns at once, built or not. *)
Lemma close_readOnly (s : State) :
  readOnly_isEnabled (editor s) = true -> close s = Ok tt s.
Proof. intros H. unfold close. mrun. now rewrite H. Qed.

(** C3. Where the claim fails: outside read-only mode, [close] on a
    toolbar whose nodes do not exist yet throws a TypeError
    ([blockActions.hide] reads [classList] of the missing actions node)
    instead of returning. *)
Theorem close_before_construction_throws (s : State) :
  readOnly_isEnabled (editor s) = false ->
  wrapper (nodes s) = None ->
  actions (nodes s) = None ->
  close s = Throw TypeError s.
Proof.
  intros Hr Hw Ha. unfold close, blockActions_hide. mrun.
  rewrite Hr, Hw. rewrite (on_actions_absent _ s Ha). reflexivity.
Qed.

Lemma close_before_construction_throws_witness :
  let e := mkEditor [] (-1) false false (mkWindow 800 1024 0) false in
  close (init None e) = Throw TypeError (init None e).
Proof.
  intros e.
  apply (close_before_construction_throws (init None e)); reflexivity.
Defined.

(* ------------------------------------------------------------------ *)
(** ** Closing *)

(** C6. Where the claim fails: outside read-only mode, on a toolbar
    whose nodes do not exist, [close] does not return in the closed
    state with the offset reset. It throws a TypeError at
    [blockActions.hide], before [reset] is reached; the state is as it
    was and no offset "unset" is stored. *)
Theorem close_unbuilt_outside_readOnly (s : State) :
  readOnly_isEnabled (editor s) = false ->
  wrapper (nodes s) = None ->
  actions (nodes s) = None ->
  (forall s', close s <> Ok tt s')
  /\ final (close s) = s
  /\ verticalOffset (final (close s)) <> Some "unset".
Proof.
  intros Hr Hw Ha.
  assert (H : close s = Throw TypeError s).
  { unfold close, blockActions_hide.
    erewrite bind_run by reflexivity. cbv beta. rewrite Hr, Hw.
    erewrite bind_run by reflexivity.
    unfold bind. now rewrite (on_actions_absent _ s Ha). }
  rewrite H. cbn [final]. split; [discriminate |]. split; [reflexivity |].
  unfold verticalOffset. rewrite Hw. discriminate.
Qed.

Lemma close_unbuilt_outside_readOnly_witness :
  let e :=
    mkEditor [mkBlock 0 (mkHolder 120 40 300) "8px" false true] 0 false false
      (mkWindow 800 1024 0) false in
  let s := run [OpToggleReadOnly true; OpToggleReadOnly false; OpRunIdle] (init None e) in
  (forall s', close s <> Ok tt s')
  /\ final (close s) = s
  /\ verticalOffset (final (close s)) <> Some "unset".
Proof.
  intros e s. apply (close_unbuilt_outside_readOnly s); reflexivity.
Defined.

(** X16. In read-only mode [close] changes nothing, in every state.
    Otherwise, on a built toolbar, it returns with the opened marker
    removed, the actions hidden and [style.top] of the wrapper set to
    "unset" whatever it was; the toggler, the hovered block, the
    bindings and the editor are as before. *)
Theorem close_spec (s : State) :
  (readOnly_isEnabled (editor s) = true -> close s = Ok tt s)
  /\
  (readOnly_isEnabled (editor s) = false ->
   wrapper (nodes s) <> None ->
   actions (nodes s) <> None ->
   exists s',
     close s = Ok tt s'
     /\ isOpened s' = false
     /\ actionsVisible s' = false
     /\ verticalOffset s' = Some "unset"
     /\ settingsToggler (nodes s') = settingsToggler (nodes s)
     /\ hoveredBlock s' = hoveredBlock s
     /\ listeners s' = listeners s
     /\ subscriptions s' = subscriptions s
     /\ idleQueue s' = idleQueue s
     /\ editor s' = editor s
     /\ trace s' = trace s).
Proof.
  split; [apply close_readOnly |].
  intros Hr Hw Ha.
  destruct (wrapper (nodes s)) as [w |] eqn:Ew; [clear Hw | congruence].
  destruct (actions (nodes s)) as [a |] eqn:Ea; [clear Ha | congruence].
  eexists. split.
  - unfold close, blockActions_hide, reset.
    erewrite bind_run by reflexivity. cbv beta. rewrite Hr, Ew.
    erewrite bind_run by reflexivity.
    erewrite bind_run by (apply on_actions_run; msimpl; exact Ea).
    apply on_wrapper_run. reflexivity.
  - msimpl. unfold assign_top. cbn [String.eqb Ascii.eqb Bool.eqb].
    msimpl. rewrite !contains_remove. repeat split; reflexivity.
Qed.

Lemma close_spec_witness :
  let e := mkEditor [] (-1) false false (mkWindow 800 1024 0) false in
  let shown :=
    mkNodes (Some (Dom.mkElement 0 [CSS.toolbar; CSS.toolbarOpened] "128px"))
            (Some (Dom.mkElement 1 [CSS.content] ""))
            (Some (Dom.mkElement 2 [CSS.actions; CSS.actionsOpened] ""))
            None
            (Some (Dom.mkElement 3 [CSS.settingsToggler] "")) in
  let s := mkState (Some false) shown None [] [] [] 4%nat e [] in
  exists s',
    close s = Ok tt s'
    /\ isOpened s' = false
    /\ actionsVisible s' = false
    /\ verticalOffset s' = Some "unset"
    /\ settingsToggler (nodes s') = settingsToggler (nodes s)
    /\ hoveredBlock s' = hoveredBlock s
    /\ listeners s' = listeners s
    /\ subscriptions s' = subscriptions s
    /\ idleQueue s' = idleQueue s
    /\ editor s' = editor s
    /\ trace s' = trace s.
Proof.
  intros e shown s.
  apply (proj2 (close_spec s)); [reflexivity | discriminate | discriminate].
Defined.

(* ------------------------------------------------------------------ *)
(** ** The settings toggler *)

(** C5. After [moveAndOpen] on a built toolbar the settings toggler is
    hidden exactly when the sequence has one block and the block given
    is empty; for a block of the sequence, exactly when the sequence is
    that one block and it is empty. *)
Theorem settingsToggler_hidden_iff (s : State) (b : Block) :
  wrapper (nodes s) <> None ->
  settingsToggler (nodes s) <> None ->
  let s' := final (moveAndOpen (Some b) s) in
  (settingsTogglerVisible s' = false
   <-> length (blocks (editor s)) = 1%nat /\ isEmpty b = true)
  /\
  (In b (blocks (editor s)) ->
   (settingsTogglerVisible s' = false
    <-> blocks (editor s) = [b] /\ isEmpty b = true)).
Proof.
  intros Hw Ht s'.
  destruct (wrapper (nodes s)) as [w |] eqn:Ew; [clear Hw | congruence].
  destruct (settingsToggler (nodes s)) as [t |] eqn:Et; [clear Ht | congruence].
  assert (Hiff : settingsTogglerVisible s' = false
                 <-> length (blocks (editor s)) = 1%nat /\ isEmpty b = true).
  { subst s'. rewrite (moveAndOpen_run s b w Ew).
    set (s2 := set_nodes _ _).
    assert (Et2 : settingsToggler (nodes s2) = Some t) by (subst s2; msimpl; exact Et).
    destruct (Nat.eqb_spec (length (blocks (editor s))) 1) as [El | El];
      destruct (isEmpty b) eqn:Eb; cbn [andb];
      [ unfold blockTunesToggler_hide | unfold blockTunesToggler_show ..];
      erewrite bind_run by (apply on_settingsToggler_run; exact Et2);
      match goal with
      | |- context [final (open true ?s3)] =>
          pose proof (open_keeps_toggler (settingsToggler (nodes s3)) true s3 eq_refl) as Hk
      end;
      unfold settingsTogglerVisible; rewrite Hk; msimpl;
      rewrite ?contains_add, ?contains_remove; cbn [negb];
      split; try tauto; try discriminate; intros [? ?]; congruence. }
  split; [exact Hiff |].
  intros Hin. rewrite Hiff. split.
  - intros [Hl He]. split; [| exact He].
    destruct (blocks (editor s)) as [| x [| y r]]; try discriminate.
    destruct Hin as [-> | []]. reflexivity.
  - intros [Hb He]. rewrite Hb. split; [reflexivity | exact He].
Qed.

(** One empty block: hidden. A second block appended, the first still
    empty: shown. *)
Lemma settingsToggler_hidden_iff_witness :
  let w := mkWindow 800 1024 0 in
  let A := mkBlock 0 (mkHolder 120 40 300) "8px" true true in
  let B := mkBlock 1 (mkHolder 160 40 340) "8px" true true in
  let ui :=
    mkNodes (Some (Dom.mkElement 0 [CSS.toolbar] ""))
            (Some (Dom.mkElement 1 [CSS.content] ""))
            (Some (Dom.mkElement 2 [CSS.actions] ""))
            None
            (Some (Dom.mkElement 3 [CSS.settingsToggler] "")) in
  let one := mkState (Some false) ui None [] [] [] 4%nat (mkEditor [A] 0 false false w false) [] in
  let two := mkState (Some false) ui None [] [] [] 4%nat (mkEditor [A; B] 0 false false w false) [] in
  settingsTogglerVisible (final (moveAndOpen (Some A) one)) = false
  /\ settingsTogglerVisible (final (moveAndOpen (Some A) two)) <> false.
Proof.
  intros w A B ui one two. split.
  - apply (proj1 (settingsToggler_hidden_iff one A ltac:(discriminate) ltac:(discriminate))).
    split; reflexivity.
  - intros H.
    apply (proj1 (settingsToggler_hidden_iff two A ltac:(discriminate) ltac:(discriminate))) in H.
    destruct H as [H _]. discriminate H.
Defined.

(* ------------------------------------------------------------------ *)
(** ** Move down *)

Lemma nth_block_next (pre : list Block) (b nb : Block) (post : list Block) :
  Collab.nth_block (pre ++ b :: nb :: post) (Z.of_nat (length pre) + 1) = Some nb.
Proof.
  replace (pre ++ b :: nb :: post) with ((pre ++ [b]) ++ nb :: post)
    by (now rewrite <- app_assoc).
  replace (Z.of_nat (length pre) + 1) with (Z.of_nat (length (pre ++ [b])))
    by (rewrite length_app; simpl; lia).
  apply nth_block_app.
Qed.

Lemma move_down_list (pre : list Block) (b nb : Block) (post : list Block) :
  Collab.insert_at (Z.to_nat (Z.of_nat (length pre) + 1)) b
    (Collab.remove_at (Z.to_nat (Z.of_nat (length pre))) (pre ++ b :: nb :: post))
  = pre ++ nb :: b :: post.
Proof.
  rewrite Nat2Z.id, remove_at_app.
  replace (Z.to_nat (Z.of_nat (length pre) + 1)) with (length (pre ++ [nb]))
    by (rewrite length_app; simpl; lia).
  replace (pre ++ nb :: post) with ((pre ++ [nb]) ++ post)
    by (now rewrite <- app_assoc).
  rewrite insert_at_app. now rewrite <- app_assoc.
Qed.

(** C4. With the last block current, [handleClick] of the move-down
    tune throws its boundary error and leaves the whole state as it was:
    the sequence keeps its order and no move is issued. *)
Theorem moveDown_last_block (s : State) :
  currentBlockIndex (editor s) = Z.of_nat (length (blocks (editor s))) - 1 ->
  MoveDownTune.handleClick s = Throw MoveDownTune.boundary s.
Proof.
  intros H. unfold MoveDownTune.handleClick, Collab.getCurrentBlockIndex,
    Collab.getBlockByIndex. mrun. rewrite H.
  replace (Z.of_nat (length (blocks (editor s))) - 1 + 1)
    with (Z.of_nat (length (blocks (editor s)))) by lia.
  now rewrite nth_block_length.
Qed.

Lemma moveDown_last_block_witness :
  let w := mkWindow 800 1024 0 in
  let A := mkBlock 0 (mkHolder 120 40 300) "8px" false true in
  let B := mkBlock 1 (mkHolder 160 40 340) "8px" false true in
  let s := init None (mkEditor [A; B] 1 false false w false) in
  MoveDownTune.handleClick s = Throw MoveDownTune.boundary s.
Proof.
  intros w A B s. apply (moveDown_last_block s). reflexivity.
Defined.

(** C10. With a block after the current one, [handleClick] returns,
    having asked for the scroll (by the next block's height past the
    current scroll position when the next block's top is above the
    bottom of the viewport), then moved the block one place down, then
    opened the Block Settings, in this order; the panel is open at the
    end. *)
Theorem moveDown_effect_order (s : State) (pre post : list Block) (b nb : Block) :
  blocks (editor s) = pre ++ b :: nb :: post ->
  currentBlockIndex (editor s) = Z.of_nat (length pre) ->
  exists (s' : State) (y : JS.number),
    MoveDownTune.handleClick s = Ok tt s'
    /\ trace s'
       = trace s ++ [ScrollTo (JS.of_Z 0) y;
                     BlocksMove (Z.of_nat (length pre) + 1);
                     ToggleBlockSettings (Some true)]
    /\ ((rect_top (holder nb) < innerHeight (window (editor s)))%Q ->
        y = JS.Num (scrollY (window (editor s)) + offsetHeight (holder nb)))
    /\ ((innerHeight (window (editor s)) <= rect_top (holder nb))%Q ->
        y = JS.Num (Qabs (innerHeight (window (editor s)) - offsetHeight (holder nb))))
    /\ blocks (editor s') = pre ++ nb :: b :: post
    /\ currentBlockIndex (editor s') = Z.of_nat (length pre) + 1
    /\ blockSettingsOpened (editor s') = true
    /\ nodes s' = nodes s.
Proof.
  intros Hb Hc.
  exists (final (MoveDownTune.handleClick s)),
         (MoveDownTune.scrollOffset (window (editor s)) nb).
  unfold MoveDownTune.handleClick, Collab.getCurrentBlockIndex,
    Collab.getBlockByIndex, Collab.scrollTo, Collab.move,
    Collab.toggleBlockSettings.
  mrun. rewrite Hc, Hb, nth_block_next. mrun.
  rewrite ?Hc, ?Hb, nth_block_app, nth_block_next. mrun.
  rewrite ?Hc, ?Hb, move_down_list.
  repeat split.
  - now rewrite <- !app_assoc.
  - intros Hlt. unfold MoveDownTune.scrollOffset, JS.lt, JS.add.
    destruct (Qle_bool _ _) eqn:E; [| reflexivity].
    apply Qle_bool_iff in E. exfalso. exact (Qlt_not_le _ _ Hlt E).
  - intros Hle. unfold MoveDownTune.scrollOffset, JS.lt, JS.sub, JS.Math_abs.
    apply Qle_bool_iff in Hle. now rewrite Hle.
Qed.

Lemma moveDown_effect_order_witness :
  let w := mkWindow 800 1024 0 in
  let A := mkBlock 0 (mkHolder 120 40 300) "8px" false true in
  let B := mkBlock 1 (mkHolder 160 40 340) "8px" false true in
  let s := init None (mkEditor [A; B] 0 false false w false) in
  exists (s' : State) (y : JS.number),
    MoveDownTune.handleClick s = Ok tt s'
    /\ trace s'
       = trace s ++ [ScrollTo (JS.of_Z 0) y; BlocksMove (Z.of_nat 0 + 1);
                     ToggleBlockSettings (Some true)]
    /\ ((rect_top (holder B) < innerHeight (window (editor s)))%Q ->
        y = JS.Num (scrollY (window (editor s)) + offsetHeight (holder B)))
    /\ ((innerHeight (window (editor s)) <= rect_top (holder B))%Q ->
        y = JS.Num (Qabs (innerHeight (window (editor s)) - offsetHeight (holder B))))
    /\ blocks (editor s') = [] ++ B :: A :: []
    /\ currentBlockIndex (editor s') = Z.of_nat 0 + 1
    /\ blockSettingsOpened (editor s') = true
    /\ nodes s' = nodes s.
Proof.
  intros w A B s.
  apply (moveDown_effect_order s [] [] A B); reflexivity.
Defined.

(* ------------------------------------------------------------------ *)
(** ** Delete *)

(** C7. With a current block, the delete tune renders an entry that is
    disabled exactly when that block is not editable and that carries no
    [onActivate] of its own, only a confirmation. Activating the entry
    once changes nothing and arms the confirmation; activating the armed
    entry deletes the current block: the sequence is one block shorter. *)
Theorem delete_needs_confirmation (s : State) (pre post : list Block) (b : Block) :
  blocks (editor s) = pre ++ b :: post ->
  currentBlockIndex (editor s) = Z.of_nat (length pre) ->
  exists (item armed : TunesMenuConfig) (s2 : State),
    DeleteTune.render s = Ok item s
    /\ (isDisabled item = Some true <-> editable b = false)
    /\ onActivate item = None
    /\ SettingsPanel.activate item s = Ok armed s
    /\ onActivate armed = Some Delete_handleClick
    /\ confirmation armed = None
    /\ SettingsPanel.activate armed s = Ok armed s2
    /\ blocks (editor s2) = pre ++ post
    /\ S (length (blocks (editor s2))) = length (blocks (editor s))
    /\ trace s2 = trace s ++ [BlocksDelete].
Proof.
  intros Hb Hc.
  assert (Hcur : Collab.nth_block (blocks (editor s)) (currentBlockIndex (editor s)) = Some b)
    by (rewrite Hb, Hc; apply nth_block_app).
  exists (mkTunesMenuConfig (I18n_t "Delete") "delete" None
            (Some (negb (editable b)))
            (Some (mkConfirmation (I18n_t "Click to delete") Delete_handleClick))),
         (mkTunesMenuConfig (I18n_t "Click to delete") "delete"
            (Some Delete_handleClick) (Some (negb (editable b))) None),
         (final (DeleteTune.handleClick s)).
  split.
  { unfold DeleteTune.render, Collab.getCurrentBlockIndex, Collab.getBlockByIndex.
    mrun. rewrite Hcur. reflexivity. }
  cbn [isDisabled onActivate confirmation].
  split; [destruct (editable b); cbn [negb]; split; congruence |].
  do 4 (split; [reflexivity |]).
  unfold SettingsPanel.activate.
  cbn [confirmation onActivate SettingsPanel.run].
  unfold DeleteTune.handleClick, Collab.delete. mrun. rewrite Hcur. msimpl.
  rewrite Hb, Hc, Nat2Z.id, remove_at_app.
  repeat split. rewrite !length_app. simpl. lia.
Qed.

Lemma delete_needs_confirmation_witness :
  let w := mkWindow 800 1024 0 in
  let A := mkBlock 0 (mkHolder 120 40 300) "8px" false true in
  let B := mkBlock 1 (mkHolder 160 40 340) "8px" false false in
  let s := init None (mkEditor [A; B] 1 false false w false) in
  exists (item armed : TunesMenuConfig) (s2 : State),
    DeleteTune.render s = Ok item s
    /\ (isDisabled item = Some true <-> editable B = false)
    /\ onActivate item = None
    /\ SettingsPanel.activate item s = Ok armed s
    /\ onActivate armed = Some Delete_handleClick
    /\ confirmation armed = None
    /\ SettingsPanel.activate armed s = Ok armed s2
    /\ blocks (editor s2) = [A] ++ []
    /\ S (length (blocks (editor s2))) = length (blocks (editor s))
    /\ trace s2 = trace s ++ [BlocksDelete].
Proof.
  intros w A B s.
  apply (delete_needs_confirmation s [A] [] B); reflexivity.
Defined.

(* ------------------------------------------------------------------ *)
(** ** The shell invariant *)

(** Splits a method into its steps; what is left are the steps that
    change the state. *)
Ltac pres :=
  repeat match goal with
    | |- preserves _ (ret _) => apply preserves_ret
    | |- preserves _ (throw _) => apply preserves_throw
    | |- preserves _ get => apply preserves_get
    | |- preserves _ (deref _) => apply preserves_deref
    | |- preserves _ (bind _ _) => apply preserves_bind; [| intros ?]
    | |- preserves _ (if _ then _ else _) => apply preserves_if
    | |- preserves _ (match ?x with _ => _ end) => destruct x
    end.

Lemma shell_invariant_nodes_only : nodes_only shell_invariant.
Proof.
  intros s s' E H. unfold shell_invariant in *. msimpl. now rewrite E.
Qed.

Lemma preserves_nodes_only (P : State -> Prop) (f : State -> State) :
  nodes_only P -> (forall s, nodes (f s) = nodes s) -> preserves P (modify f).
Proof.
  intros HP Hf. apply preserves_modify. intros s H. exact (HP s (f s) (Hf s) H).
Qed.

Lemma preserves_effect (P : State -> Prop) (e : Effect) :
  nodes_only P -> preserves P (effect e).
Proof. intros HP. apply preserves_nodes_only; [exact HP | reflexivity]. Qed.

Lemma hidden_shell (s : State) : actionsVisible s = false -> shell_invariant s.
Proof. intros H1 H2. congruence. Qed.

Lemma opened_shell (s : State) : isOpened s = true -> shell_invariant s.
Proof. intros H1 _. exact H1. Qed.

Lemma classList_assign_top (v : string) (e : Dom.Element) :
  Dom.classList (assign_top v e) = Dom.classList e.
Proof. unfold assign_top. now destruct (String.eqb v "NaNpx"). Qed.

Lemma shell_on_settingsToggler (f : Dom.Element -> Dom.Element) :
  preserves shell_invariant (on_settingsToggler f).
Proof.
  apply preserves_on_settingsToggler. intros s t E H.
  unfold shell_invariant in *. msimpl. exact H.
Qed.

Lemma shell_assign_top (v : string) :
  preserves shell_invariant (on_wrapper (assign_top v)).
Proof.
  apply preserves_on_wrapper. intros s w E H.
  unfold shell_invariant in *. msimpl. rewrite E in H. msimpl.
  now rewrite classList_assign_top.
Qed.

Lemma opened_on_actions (f : Dom.Element -> Dom.Element) :
  preserves (fun s => isOpened s = true) (on_actions f).
Proof. apply preserves_on_actions. intros s a E H. msimpl. exact H. Qed.

Lemma hidden_on_wrapper (f : Dom.Element -> Dom.Element) :
  preserves (fun s => actionsVisible s = false) (on_wrapper f).
Proof. apply preserves_on_wrapper. intros s w E H. msimpl. exact H. Qed.

Lemma shell_open (withBlockActions : bool) :
  preserves shell_invariant (open withBlockActions).
Proof.
  intros s H. unfold open.
  destruct (wrapper (nodes s)) as [w |] eqn:Ew.
  - erewrite bind_run by (apply on_wrapper_run; exact Ew).
    apply opened_shell.
    apply (preserves_if (fun s => isOpened s = true) withBlockActions);
      try apply opened_on_actions.
    msimpl. apply contains_add.
  - unfold on_wrapper. mrun. rewrite Ew. exact H.
Qed.

Lemma shell_moveAndOpen (arg : option Block) :
  preserves shell_invariant (moveAndOpen arg).
Proof.
  unfold moveAndOpen. pres;
    try apply shell_assign_top; try apply shell_on_settingsToggler;
    try apply shell_open;
    apply preserves_nodes_only;
    solve [apply shell_invariant_nodes_only | reflexivity].
Qed.

Lemma shell_close : preserves shell_invariant close.
Proof.
  intros s H. unfold close.
  erewrite bind_run by reflexivity. cbv beta.
  destruct (readOnly_isEnabled (editor s)); [exact H |].
  assert (Hrest : forall s1, actions (nodes s1) = actions (nodes s) ->
                  shell_invariant s1 \/ actions (nodes s1) <> None ->
                  shell_invariant (final ((blockActions_hide ;; reset) s1))).
  { intros s1 E1 H1. unfold blockActions_hide.
    destruct (actions (nodes s1)) as [a |] eqn:Ea.
    - erewrite bind_run by (apply on_actions_run; exact Ea).
      apply hidden_shell. apply hidden_on_wrapper. msimpl. apply contains_remove.
    - unfold bind. rewrite (on_actions_absent _ s1 Ea). msimpl.
      destruct H1 as [H1 | H1]; [exact H1 | congruence]. }
  destruct (wrapper (nodes s)) as [w |] eqn:Ew.
  - erewrite bind_run by reflexivity. apply Hrest; [reflexivity |].
    msimpl. destruct (actions (nodes s)) as [a |] eqn:Ea.
    + right. discriminate.
    + left. apply hidden_shell. msimpl. now rewrite Ea.
  - erewrite bind_run by reflexivity. apply Hrest; [reflexivity | left; exact H].
Qed.

Lemma shell_deliver (subs : list (string * Subscriber)) (channel : string)
    (payload : option Block) :
  preserves shell_invariant (deliver subs channel payload).
Proof.
  induction subs as [| [c []] r IH]; cbn [deliver]; pres;
    solve [apply shell_moveAndOpen | exact IH].
Qed.

Lemma shell_emit (channel : string) (payload : option Block) :
  preserves shell_invariant (emit channel payload).
Proof.
  unfold emit. pres;
    solve [apply preserves_effect, shell_invariant_nodes_only | apply shell_deliver].
Qed.

Lemma shell_settingsToggleClicked : preserves shell_invariant settingsToggleClicked.
Proof.
  unfold settingsToggleClicked, emitBlockSettingsClicked, Collab.set_currentBlock.
  pres; try apply shell_emit;
    try (apply preserves_effect, shell_invariant_nodes_only);
    apply preserves_nodes_only;
    solve [apply shell_invariant_nodes_only | reflexivity].
Qed.

Lemma shell_dispatch (ls : list Listener) (target : nat) (type : string) :
  preserves shell_invariant (dispatch ls target type).
Proof.
  induction ls as [| [t ty c] r IH]; cbn [dispatch]; pres; try exact IH.
  unfold togglerMousedown. pres;
    solve [apply preserves_effect, shell_invariant_nodes_only
          | apply shell_settingsToggleClicked].
Qed.

Lemma make_run (s : State) :
  make s
  = Ok tt
      (set_trace
         ((trace s ++ [TooltipOnHover (3 + nextId s) 400]) ++ [AppendToEditor (nextId s)])
         (set_nextId (4 + nextId s)
            (set_nodes
               (mkNodes (Some (Dom.mkElement (nextId s) [CSS.toolbar] ""))
                        (Some (Dom.mkElement (1 + nextId s) [CSS.content] ""))
                        (Some (Dom.mkElement (2 + nextId s) [CSS.actions] ""))
                        (plusButton (nodes s))
                        (Some (Dom.mkElement (3 + nextId s) [CSS.settingsToggler] "")))
               s))).
Proof. destruct s as [cfg [w c a p t] hb ls subs q n e tr]. reflexivity. Qed.

Lemma shell_make : preserves shell_invariant make.
Proof.
  intros s _. rewrite make_run. apply hidden_shell. reflexivity.
Qed.

Lemma shell_enableModuleBindings : preserves shell_invariant enableModuleBindings.
Proof.
  unfold enableModuleBindings, Collab.readOnlyMutableListeners_on,
    Collab.isMobileScreen, Collab.eventsDispatcher_on.
  pres; apply preserves_nodes_only;
    solve [apply shell_invariant_nodes_only | reflexivity].
Qed.

Lemma shell_toggleReadOnly (readOnlyEnabled : bool) :
  preserves shell_invariant (toggleReadOnly readOnlyEnabled).
Proof.
  unfold toggleReadOnly, destroy, disableModuleBindings, Collab.requestIdleCallback,
    Collab.removeAllNodes, Collab.readOnlyMutableListeners_clearAll.
  pres.
  - apply preserves_nodes_only;
      solve [apply shell_invariant_nodes_only | reflexivity].
  - intros s _. apply hidden_shell. reflexivity.
  - apply preserves_nodes_only;
      solve [apply shell_invariant_nodes_only | reflexivity].
Qed.

Lemma shell_runIdle : preserves shell_invariant runIdle.
Proof.
  unfold runIdle, run_idle, drawUI. pres;
    try apply shell_make; try apply shell_enableModuleBindings;
    apply preserves_nodes_only;
    solve [apply shell_invariant_nodes_only | reflexivity].
Qed.

Lemma shell_exec (o : Op) (s : State) :
  shell_invariant s -> shell_invariant (exec o s).
Proof.
  destruct o; cbn [exec].
  - apply shell_moveAndOpen.
  - apply shell_open.
  - apply shell_close.
  - apply shell_emit.
  - apply shell_toggleReadOnly.
  - apply shell_runIdle.
  - apply shell_emit.
  - unfold clickSettingsToggler.
    apply (preserves_bind shell_invariant); [apply preserves_get | intros s0].
    destruct (settingsToggler (nodes s0)); [apply shell_dispatch | apply preserves_ret].
  - intros H. exact H.
Qed.

Lemma reachable_shell (s : State) : reachable s -> shell_invariant s.
Proof.
  induction 1 as [cfg e | o s _ IH].
  - apply hidden_shell. reflexivity.
  - apply shell_exec, IH.
Qed.

Lemma reachable_run (ops : list Op) (s : State) :
  reachable s -> reachable (run ops s).
Proof.
  revert s. induction ops as [| o ops IH]; intros s H; cbn [run fold_left].
  - exact H.
  - apply IH. apply reach_step, H.
Qed.

(** C8. In every state the toolbar can reach, by calls of [moveAndOpen],
    [open], [close], [activate] and [toggleReadOnly], by the deferred
    rebuild, by hovers and toggler clicks, and by changes of the other
    modules, a toolbar that is not opened has its actions hidden. *)
Theorem closed_shell_hides_actions (s : State) :
  reachable s -> isOpened s = false -> actionsVisible s = false.
Proof.
  intros Hr Ho. apply reachable_shell in Hr.
  destruct (actionsVisible s) eqn:Ea; [| reflexivity].
  unfold shell_invariant in Hr. rewrite Ea in Hr.
  specialize (Hr eq_refl). congruence.
Qed.

Lemma closed_shell_hides_actions_witness :
  let w := mkWindow 800 1024 0 in
  let A := mkBlock 0 (mkHolder 120 40 300) "8px" false true in
  let s0 := init (Some false) (mkEditor [A] 0 false false w false) in
  let s := run [OpToggleReadOnly false; OpRunIdle; OpHover A; OpClose] s0 in
  actionsVisible s = false.
Proof.
  intros w A s0 s.
  apply (closed_shell_hides_actions s).
  - apply reachable_run, reach_init.
  - reflexivity.
Defined.

(* ------------------------------------------------------------------ *)
(** ** The subscriptions *)

Lemma hover_only_same (s s' : State) :
  subscriptions s' = subscriptions s -> hover_only s -> hover_only s'.
Proof. unfold hover_only. intros E H. now rewrite E. Qed.

(** Closes the steps that leave the subscriptions alone. *)
Ltac frame_subs :=
  match goal with
  | |- preserves _ (modify _) => apply preserves_modify; intros ? ?
  | |- preserves _ (on_wrapper _) => apply preserves_on_wrapper; intros ? ? ? ?
  | |- preserves _ (on_actions _) => apply preserves_on_actions; intros ? ? ? ?
  | |- preserves _ (on_settingsToggler _) =>
      apply preserves_on_settingsToggler; intros ? ? ? ?
  end;
  (eapply hover_only_same; [| eassumption]); reflexivity.

Lemma hover_only_open (b : bool) : preserves hover_only (open b).
Proof.
  unfold open, blockActions_show, blockActions_hide. pres; frame_subs.
Qed.

Lemma hover_only_moveAndOpen (arg : option Block) :
  preserves hover_only (moveAndOpen arg).
Proof.
  unfold moveAndOpen, blockTunesToggler_hide, blockTunesToggler_show.
  pres; try apply hover_only_open; frame_subs.
Qed.

Lemma hover_only_close : preserves hover_only close.
Proof.
  unfold close, blockActions_hide, reset. pres; frame_subs.
Qed.

Lemma hover_only_deliver (subs : list (string * Subscriber)) (channel : string)
    (payload : option Block) :
  preserves hover_only (deliver subs channel payload).
Proof.
  induction subs as [| [c []] r IH]; cbn [deliver]; pres;
    solve [apply hover_only_moveAndOpen | exact IH].
Qed.

Lemma hover_only_emit (channel : string) (payload : option Block) :
  preserves hover_only (emit channel payload).
Proof.
  unfold emit, effect. pres; try apply hover_only_deliver; frame_subs.
Qed.

Lemma hover_only_dispatch (ls : list Listener) (target : nat) (type : string) :
  preserves hover_only (dispatch ls target type).
Proof.
  induction ls as [| [t ty c] r IH]; cbn [dispatch]; pres; try exact IH.
  unfold togglerMousedown, settingsToggleClicked, emitBlockSettingsClicked,
    Collab.set_currentBlock, effect.
  pres; try apply hover_only_emit; frame_subs.
Qed.

Lemma hover_only_enableModuleBindings : preserves hover_only enableModuleBindings.
Proof.
  unfold enableModuleBindings, Collab.readOnlyMutableListeners_on,
    Collab.isMobileScreen, Collab.eventsDispatcher_on.
  pres; try frame_subs.
  apply preserves_modify. intros s H. unfold hover_only in *. msimpl.
  apply Forall_app. split; [exact H |]. now constructor.
Qed.

Lemma hover_only_runIdle : preserves hover_only runIdle.
Proof.
  unfold runIdle, run_idle, drawUI. pres;
    try apply hover_only_enableModuleBindings; try frame_subs.
  intros s H. rewrite make_run. exact H.
Qed.

Lemma hover_only_toggleReadOnly (b : bool) : preserves hover_only (toggleReadOnly b).
Proof.
  unfold toggleReadOnly, destroy, disableModuleBindings, Collab.requestIdleCallback,
    Collab.removeAllNodes, Collab.readOnlyMutableListeners_clearAll.
  pres; frame_subs.
Qed.

Lemma reachable_hover_only (s : State) : reachable s -> hover_only s.
Proof.
  induction 1 as [cfg e | o s _ IH].
  - constructor.
  - destruct o; cbn [exec].
    + apply hover_only_moveAndOpen, IH.
    + apply hover_only_open, IH.
    + apply hover_only_close, IH.
    + apply hover_only_emit, IH.
    + apply hover_only_toggleReadOnly, IH.
    + apply hover_only_runIdle, IH.
    + apply hover_only_emit, IH.
    + revert IH. unfold clickSettingsToggler.
      apply (preserves_bind hover_only); [apply preserves_get | intros s0].
      destruct (settingsToggler (nodes s0));
        [apply hover_only_dispatch | apply preserves_ret].
    + exact IH.
Qed.

(** No handler of this module listens to "settings clicked". *)
Lemma deliver_settingsClicked (subs : list (string * Subscriber))
    (payload : option Block) (s : State) :
  Forall (fun p => fst p = BlockHovered) subs ->
  deliver subs SettingsClicked payload s = Ok tt s.
Proof.
  induction 1 as [| [c []] r Hc _ IH]; cbn [deliver]; [reflexivity |].
  cbn [fst] in Hc. subst c.
  erewrite bind_run by reflexivity. exact IH.
Qed.

Lemma index_from_app (pre : list Block) (b : Block) (post : list Block) (i : Z) :
  (forall x, In x pre -> block_id x <> block_id b) ->
  Collab.index_from (pre ++ b :: post) b i = i + Z.of_nat (length pre).
Proof.
  revert i. induction pre as [| x pre IH]; intros i H; cbn [app Collab.index_from].
  - rewrite Nat.eqb_refl. cbn [length]. lia.
  - destruct (Nat.eqb_spec (block_id x) (block_id b)) as [E | _].
    + exfalso. apply (H x); [now left | exact E].
    + rewrite IH by (intros y Hy; apply H; now right). cbn [length]. lia.
Qed.

(* ------------------------------------------------------------------ *)
(** ** The click on the settings toggler *)

(** C9. [settingsToggleClicked] first makes the hovered block the
    current block of the Block Sequence, then emits "settings clicked"
    with that same block, and returns; the nodes, so the opened state of
    the toolbar, and the hovered block are as before. The mousedown
    closure of the toggler does this between stopping the propagation of
    the event and hiding the tooltip. *)
Theorem settingsToggleClicked_spec (s : State) :
  reachable s ->
  (exists s',
     settingsToggleClicked s = Ok tt s'
     /\ trace s'
        = trace s ++ [SetCurrentBlock (hoveredBlock s);
                      Emit SettingsClicked (hoveredBlock s)]
     /\ currentBlockIndex (editor s')
        = match hoveredBlock s with
          | Some b => Collab.index_from (blocks (editor s)) b 0
          | None => -1
          end
     /\ (forall b pre post,
           hoveredBlock s = Some b ->
           blocks (editor s) = pre ++ b :: post ->
           (forall x, In x pre -> block_id x <> block_id b) ->
           Collab.currentBlock (editor s') = Some b)
     /\ blocks (editor s') = blocks (editor s)
     /\ nodes s' = nodes s
     /\ isOpened s' = isOpened s
     /\ actionsVisible s' = actionsVisible s
     /\ hoveredBlock s' = hoveredBlock s)
  /\
  (exists s'',
     togglerMousedown s = Ok tt s''
     /\ trace s''
        = trace s ++ [StopPropagation;
                      SetCurrentBlock (hoveredBlock s);
                      Emit SettingsClicked (hoveredBlock s);
                      TooltipHide true]
     /\ nodes s'' = nodes s
     /\ hoveredBlock s'' = hoveredBlock s).
Proof.
  intros Hr. apply reachable_hover_only in Hr. split.
  - eexists. split.
    { unfold settingsToggleClicked, emitBlockSettingsClicked, emit,
        Collab.set_currentBlock.
      mrun. apply deliver_settingsClicked. exact Hr. }
    msimpl. split; [now rewrite <- app_assoc |].
    split; [reflexivity |].
    split; [| repeat split].
    intros b pre post Hh Hb Hu. rewrite Hh, Hb.
    unfold Collab.currentBlock. msimpl.
    rewrite index_from_app by exact Hu. rewrite ?Hb, Z.add_0_l.
    apply nth_block_app.
  - eexists. split.
    { unfold togglerMousedown, settingsToggleClicked, emitBlockSettingsClicked,
        emit, Collab.set_currentBlock.
      mrun. rewrite deliver_settingsClicked by exact Hr. reflexivity. }
    msimpl. split; [now rewrite <- !app_assoc |]. split; reflexivity.
Qed.

Lemma settingsToggleClicked_spec_witness :
  let w := mkWindow 800 1024 0 in
  let A := mkBlock 0 (mkHolder 120 40 300) "8px" false true in
  let B := mkBlock 1 (mkHolder 160 40 340) "8px" false true in
  let s0 := init (Some false) (mkEditor [A; B] 0 false false w false) in
  let s := run [OpToggleReadOnly false; OpRunIdle; OpHover B] s0 in
  (exists s',
     settingsToggleClicked s = Ok tt s'
     /\ trace s' = trace s ++ [SetCurrentBlock (Some B); Emit SettingsClicked (Some B)]
     /\ Collab.currentBlock (editor s') = Some B
     /\ isOpened s' = true)
  /\ trace (final (clickSettingsToggler s))
     = trace s ++ [StopPropagation; SetCurrentBlock (Some B);
                   Emit SettingsClicked (Some B); TooltipHide true].
Proof.
  intros w A B s0 s. split; [| reflexivity].
  destruct (proj1 (settingsToggleClicked_spec s (reachable_run _ _ (reach_init _ _))))
    as (s' & H1 & H2 & _ & H4 & _ & _ & H7 & _).
  exists s'. split; [exact H1 |]. split; [exact H2 |]. split.
  - apply (H4 B [A] []); [reflexivity | reflexivity |].
    intros x [<- | []]. discriminate.
  - rewrite H7. reflexivity.
Defined.

(* ------------------------------------------------------------------ *)
(** ** Read-only toggling *)

Lemma toggleReadOnly_teardown (s : State) (readOnlyEnabled : bool) :
  (negb readOnlyEnabled && negb (JS.nullish (hideConfigToolbar s) true))%bool = false ->
  toggleReadOnly readOnlyEnabled s
  = Ok tt (set_listeners [] (set_nodes (mkNodes None None None None None) s)).
Proof.
  intros H. unfold toggleReadOnly. erewrite bind_run by reflexivity.
  cbv beta. rewrite H. reflexivity.
Qed.

(** [moveAndOpen] with a block on a built toolbar: it returns, the
    toolbar is built, opened, with its actions shown, at that block. *)
Lemma moveAndOpen_built (s : State) (b : Block) :
  built s ->
  exists s',
    moveAndOpen (Some b) s = Ok tt s'
    /\ built s'
    /\ isOpened s' = true
    /\ actionsVisible s' = true
    /\ hoveredBlock s' = Some b.
Proof.
  intros (Hw & Ha & Ht).
  destruct (wrapper (nodes s)) as [w |] eqn:Ew; [clear Hw | congruence].
  destruct (actions (nodes s)) as [a |] eqn:Ea; [clear Ha | congruence].
  destruct (settingsToggler (nodes s)) as [t |] eqn:Et; [clear Ht | congruence].
  rewrite (moveAndOpen_run s b w Ew).
  set (f := if (Nat.eqb (length (blocks (editor s))) 1 && isEmpty b)%bool
            then blockTunesToggler_hide else blockTunesToggler_show).
  assert (Hf : exists g, f = on_settingsToggler g)
    by (subst f; destruct (_ && _)%bool; eexists; reflexivity).
  destruct Hf as [g ->].
  erewrite bind_run by (apply on_settingsToggler_run; msimpl; exact Et).
  unfold open, blockActions_show.
  erewrite bind_run by (apply on_wrapper_run; reflexivity).
  eexists. split; [apply on_actions_run; msimpl; exact Ea |].
  unfold built. msimpl. rewrite !contains_add.
  repeat split; discriminate.
Qed.

(** A hover delivered to a built toolbar: every subscriber returns, and
    the toolbar is opened at the block as soon as one of them is
    subscribed to the channel. *)
Lemma deliver_hover (subs : list (string * Subscriber)) (b : Block) (s : State) :
  built s ->
  exists s',
    deliver subs BlockHovered (Some b) s = Ok tt s'
    /\ built s'
    /\ ((isOpened s = true /\ actionsVisible s = true /\ hoveredBlock s = Some b)
        \/ Exists (fun p => fst p = BlockHovered) subs ->
        isOpened s' = true /\ actionsVisible s' = true /\ hoveredBlock s' = Some b).
Proof.
  revert s. induction subs as [| [c []] r IH]; intros s Hb; cbn [deliver].
  - exists s. split; [reflexivity |]. split; [exact Hb |].
    intros [H | H]; [exact H | inversion H].
  - destruct (String.eqb_spec c BlockHovered) as [-> | Hc].
    + destruct (moveAndOpen_built s b Hb) as (s1 & H1 & Hb1 & Ho1).
      erewrite bind_run by exact H1.
      destruct (IH s1 Hb1) as (s' & H' & Hb' & Ho').
      exists s'. split; [exact H' |]. split; [exact Hb' |].
      intros _. apply Ho'. left. exact Ho1.
    + erewrite bind_run by reflexivity.
      destruct (IH s Hb) as (s' & H' & Hb' & Ho').
      exists s'. split; [exact H' |]. split; [exact Hb' |].
      intros [H | H]; apply Ho'; [left; exact H |].
      inversion H as [? ? E | ? ? E]; subst; [| right; exact E].
      cbn [fst] in E. congruence.
Qed.

Lemma toggleReadOnly_schedule (s : State) :
  hideConfigToolbar s = Some false ->
  toggleReadOnly false s
  = Ok tt (set_idleQueue (idleQueue s ++ [(RebuildUI, 2000)]) s).
Proof.
  intros H. unfold toggleReadOnly. erewrite bind_run by reflexivity.
  cbv beta. rewrite H. reflexivity.
Qed.

Lemma enableModuleBindings_run (s : State) (t : Dom.Element) :
  settingsToggler (nodes s) = Some t ->
  enableModuleBindings s
  = Ok tt
      (let s1 :=
         set_listeners (listeners s ++ [OnTogglerMousedown (Dom.eid t) "mousedown" true]) s in
       if Qle_bool (innerWidth (window (editor s))) 650
       then s1
       else set_subscriptions (subscriptions s ++ [(BlockHovered, OnBlockHovered)]) s1).
Proof.
  intros E. unfold enableModuleBindings, Collab.readOnlyMutableListeners_on,
    Collab.isMobileScreen, Collab.eventsDispatcher_on.
  mrun. rewrite E. mrun.
  now destruct (Qle_bool (innerWidth (window (editor s))) 650).
Qed.

Lemma runIdle_run (s : State) (cb : IdleCallback) (t : Z)
    (q : list (IdleCallback * Z)) :
  idleQueue s = (cb, t) :: q ->
  runIdle s = (drawUI ;; enableModuleBindings) (set_idleQueue q s).
Proof.
  intros E. unfold runIdle. erewrite bind_run by reflexivity.
  cbv beta. rewrite E. erewrite bind_run by reflexivity. now destruct cb.
Qed.

(** The state after entering read-only, leaving it and the idle
    callback, when the configuration has [hideConfigToolbar: false]. *)
Lemma rebuild_run (s : State) :
  hideConfigToolbar s = Some false ->
  let s' := run [OpToggleReadOnly true; OpToggleReadOnly false; OpRunIdle] s in
  nodes s'
  = mkNodes (Some (Dom.mkElement (nextId s) [CSS.toolbar] ""))
            (Some (Dom.mkElement (1 + nextId s) [CSS.content] ""))
            (Some (Dom.mkElement (2 + nextId s) [CSS.actions] ""))
            None
            (Some (Dom.mkElement (3 + nextId s) [CSS.settingsToggler] ""))
  /\ listeners s' = [OnTogglerMousedown (3 + nextId s) "mousedown" true]
  /\ subscriptions s'
     = (if Qle_bool (innerWidth (window (editor s))) 650
        then subscriptions s
        else subscriptions s ++ [(BlockHovered, OnBlockHovered)])
  /\ editor s' = editor s
  /\ hoveredBlock s' = hoveredBlock s.
Proof.
  intros H s'. subst s'. cbn [run fold_left exec].
  rewrite (toggleReadOnly_teardown s true eq_refl). cbn [final].
  rewrite toggleReadOnly_schedule by exact H. cbn [final].
  set (s1 := set_listeners [] _).
  assert (Hq : exists cb t q, idleQueue s1 ++ [(RebuildUI, 2000)] = (cb, t) :: q).
  { destruct (idleQueue s1) as [| [cb t] q]; cbn [app]; eauto. }
  destruct Hq as (cb & t & q & Hq).
  rewrite (runIdle_run _ cb t q) by (msimpl; exact Hq).
  unfold drawUI. erewrite bind_run by apply make_run.
  erewrite enableModuleBindings_run by reflexivity.
  subst s1. msimpl.
  destruct (Qle_bool (innerWidth (window (editor s))) 650); msimpl;
    repeat split; reflexivity.
Qed.

(** C2, as the code has it. Entering read-only removes every node and
    every listener bound through [readOnlyMutableListeners]. Leaving it
    queues the rebuild, with a timeout of 2000 ms and nothing else
    changed at the call, only when the configuration sets
    [hideConfigToolbar] to false; when the option is absent or true,
    leaving read-only tears down as entering it does. With the option
    false, entering, leaving and the idle callback leave the toolbar
    built, closed, with the mousedown of the new toggler bound, and on a
    screen wider than 650px a hover then opens it at the hovered block. *)
Theorem toggleReadOnly_spec (s : State) :
  toggleReadOnly true s
  = Ok tt (set_listeners [] (set_nodes (mkNodes None None None None None) s))
  /\
  (hideConfigToolbar s = Some false ->
   toggleReadOnly false s
   = Ok tt (set_idleQueue (idleQueue s ++ [(RebuildUI, 2000)]) s))
  /\
  (hideConfigToolbar s <> Some false ->
   toggleReadOnly false s = toggleReadOnly true s)
  /\
  (hideConfigToolbar s = Some false ->
   let s' := run [OpToggleReadOnly true; OpToggleReadOnly false; OpRunIdle] s in
   built s'
   /\ isOpened s' = false
   /\ (exists t, settingsToggler (nodes s') = Some t
                 /\ listeners s' = [OnTogglerMousedown (Dom.eid t) "mousedown" true])
   /\ (Qle_bool (innerWidth (window (editor s))) 650 = false ->
       forall b : Block,
         let s'' := exec (OpHover b) s' in
         isOpened s'' = true
         /\ actionsVisible s'' = true
         /\ hoveredBlock s'' = Some b)).
Proof.
  split; [apply toggleReadOnly_teardown; reflexivity |].
  split; [apply toggleReadOnly_schedule |].
  split.
  { intros H. rewrite !toggleReadOnly_teardown; [reflexivity | reflexivity |].
    destruct (hideConfigToolbar s) as [[] |]; try reflexivity. congruence. }
  intros H s'.
  destruct (rebuild_run s H) as (Hn & Hl & Hs & He & Hh). fold s' in Hn, Hl, Hs, He, Hh.
  assert (Hb : built s') by (unfold built; rewrite Hn; msimpl; repeat split; discriminate).
  split; [exact Hb |].
  split; [unfold isOpened; rewrite Hn; reflexivity |].
  split; [eexists; rewrite Hn, Hl; split; reflexivity |].
  intros Hm b s''. subst s''. cbn [exec]. unfold hover, emit.
  erewrite bind_run by reflexivity. erewrite bind_run by reflexivity.
  set (s1 := set_trace _ s').
  assert (Hb1 : built s1) by exact Hb.
  destruct (deliver_hover (subscriptions s1) b s1 Hb1) as (s2 & H2 & _ & Ho).
  rewrite H2. cbn [final]. apply Ho. right.
  subst s1. msimpl. rewrite Hs, Hm.
  apply Exists_app. right. now constructor.
Qed.

Lemma toggleReadOnly_spec_witness :
  let w := mkWindow 800 1024 0 in
  let A := mkBlock 0 (mkHolder 120 40 300) "8px" false true in
  let s := init (Some false) (mkEditor [A] 0 false false w false) in
  let s' := run [OpToggleReadOnly true; OpToggleReadOnly false; OpRunIdle] s in
  idleQueue (exec (OpToggleReadOnly false) s) = [(RebuildUI, 2000)]
  /\ built s'
  /\ isOpened (exec (OpHover A) s') = true.
Proof.
  intros w A s s'.
  destruct (toggleReadOnly_spec s) as (_ & H2 & _ & H4).
  split.
  - cbn [exec]. rewrite (H2 eq_refl). reflexivity.
  - destruct (H4 eq_refl) as (Hb & _ & _ & Hh). split; [exact Hb |].
    exact (proj1 (Hh eq_refl A)).
Defined.

(** C2 as stated fails. With the default configuration (the option
    absent, so the host has not opted the toolbar out) leaving read-only
    queues nothing, and entering, leaving, the idle callback and a hover
    leave the toolbar without nodes. With [hideConfigToolbar: false] on
    a screen 400px wide the toolbar is rebuilt, but a hover does not
    open it. *)
Lemma toggleReadOnly_counterexample :
  let A := mkBlock 0 (mkHolder 120 40 300) "8px" false true in
  let ops := [OpToggleReadOnly true; OpToggleReadOnly false; OpRunIdle; OpHover A] in
  let dflt := init None (mkEditor [A] 0 false false (mkWindow 800 1024 0) false) in
  let narrow := init (Some false) (mkEditor [A] 0 true false (mkWindow 800 400 0) false) in
  (hideConfigToolbar dflt <> Some true
   /\ idleQueue (exec (OpToggleReadOnly false) dflt) = []
   /\ wrapper (nodes (run ops dflt)) = None
   /\ isOpened (run ops dflt) = false)
  /\
  (wrapper (nodes (run ops narrow)) <> None
   /\ isOpened (run ops narrow) = false
   /\ hoveredBlock (run ops narrow) = None).
Proof.
  intros A ops dflt narrow. split.
  - split; [discriminate |]. repeat split; reflexivity.
  - split; [discriminate |]. split; reflexivity.
Qed.

(* ================================================================== *)
(** * Further properties of the code *)

(** ** Explicit results on a built toolbar *)

Lemma add_add (l : list string) (c : string) :
  Dom.add (Dom.add l c) c = Dom.add l c.
Proof.
  unfold Dom.add at 1. now rewrite contains_add.
Qed.

Lemma remove_remove (l : list string) (c : string) :
  Dom.remove (Dom.remove l c) c = Dom.remove l c.
Proof.
  unfold Dom.remove. induction l as [| x l IH]; cbn [filter]; [reflexivity |].
  destruct (negb (String.eqb c x)) eqn:E; cbn [filter]; rewrite ?E; now rewrite ?IH.
Qed.

Lemma classList_add_twice (c : string) (e : Dom.Element) :
  classList_add c (classList_add c e) = classList_add c e.
Proof. unfold classList_add, Dom.set_classList. msimpl. now rewrite add_add. Qed.

Lemma classList_remove_twice (c : string) (e : Dom.Element) :
  classList_remove c (classList_remove c e) = classList_remove c e.
Proof. unfold classList_remove, Dom.set_classList. msimpl. now rewrite remove_remove. Qed.

Lemma assign_top_again (v c : string) (e : Dom.Element) :
  classList_add c (assign_top v (classList_add c (assign_top v e)))
  = classList_add c (assign_top v e).
Proof.
  unfold assign_top. destruct (String.eqb v "NaNpx").
  - apply classList_add_twice.
  - unfold classList_add, Dom.set_classList, Dom.set_style_top. msimpl.
    now rewrite add_add.
Qed.

Lemma moveAndOpen_built_run (s : State) (b : Block) (w a t : Dom.Element) :
  wrapper (nodes s) = Some w ->
  actions (nodes s) = Some a ->
  settingsToggler (nodes s) = Some t ->
  moveAndOpen (Some b) s = Ok tt (moved s b w a t).
Proof.
  intros Ew Ea Et. rewrite (moveAndOpen_run s b w Ew).
  fold (top_text s b).
  assert (Hf : (if (Nat.eqb (length (blocks (editor s))) 1 && isEmpty b)%bool
                then blockTunesToggler_hide else blockTunesToggler_show)
               = on_settingsToggler (toggler_step s b)).
  { unfold toggler_step. now destruct (_ && _)%bool. }
  rewrite Hf.
  erewrite bind_run by (apply on_settingsToggler_run; msimpl; exact Et).
  unfold open, blockActions_show.
  erewrite bind_run by (apply on_wrapper_run; reflexivity).
  erewrite on_actions_run by (msimpl; exact Ea).
  reflexivity.
Qed.

Lemma close_run (s : State) (w a : Dom.Element) :
  readOnly_isEnabled (editor s) = false ->
  wrapper (nodes s) = Some w ->
  actions (nodes s) = Some a ->
  close s = Ok tt (closed s w a).
Proof.
  intros Hr Ew Ea. unfold close, blockActions_hide, reset.
  erewrite bind_run by reflexivity. cbv beta. rewrite Hr, Ew.
  erewrite bind_run by reflexivity.
  erewrite bind_run by (apply on_actions_run; msimpl; exact Ea).
  erewrite on_wrapper_run by reflexivity. reflexivity.
Qed.

Lemma toggler_step_twice (s : State) (b : Block) (t : Dom.Element) :
  toggler_step s b (toggler_step s b t) = toggler_step s b t.
Proof.
  unfold toggler_step. destruct (_ && _)%bool;
    [apply classList_add_twice | apply classList_remove_twice].
Qed.

Lemma top_text_same (s s' : State) (b : Block) :
  editor s' = editor s -> top_text s' b = top_text s b.
Proof. intros E. unfold top_text. now rewrite E. Qed.

Lemma toggler_step_same (s s' : State) (b : Block) :
  editor s' = editor s -> toggler_step s' b = toggler_step s b.
Proof. intros E. unfold toggler_step. now rewrite E. Qed.

(** A second [moveAndOpen] for the same block finds nothing to change. *)
Lemma moveAndOpen_fixed (s : State) (b : Block) (w a t : Dom.Element) :
  moveAndOpen (Some b) (moved s b w a t) = Ok tt (moved s b w a t).
Proof.
  erewrite moveAndOpen_built_run by reflexivity. f_equal.
  unfold moved at 1.
  rewrite (top_text_same s (moved s b w a t)) by reflexivity.
  rewrite (toggler_step_same s (moved s b w a t)) by reflexivity.
  rewrite assign_top_again, classList_add_twice, toggler_step_twice.
  reflexivity.
Qed.

Lemma built_nodes (s : State) :
  built s ->
  exists w a t,
    wrapper (nodes s) = Some w /\ actions (nodes s) = Some a
    /\ settingsToggler (nodes s) = Some t.
Proof.
  intros (Hw & Ha & Ht).
  destruct (wrapper (nodes s)) as [w |]; [| congruence].
  destruct (actions (nodes s)) as [a |]; [| congruence].
  destruct (settingsToggler (nodes s)) as [t |]; [| congruence].
  now exists w, a, t.
Qed.

Lemma moveAndOpen_default (s : State) :
  moveAndOpen None s
  = match Collab.currentBlock (editor s) with
    | Some b => moveAndOpen (Some b) s
    | None => Ok tt s
    end.
Proof.
  unfold moveAndOpen. mrun. now destruct (Collab.currentBlock (editor s)).
Qed.

Lemma deliver_fixed (subs : list (string * Subscriber)) (channel : string)
    (payload : option Block) (s : State) :
  moveAndOpen payload s = Ok tt s ->
  deliver subs channel payload s = Ok tt s.
Proof.
  intros H. induction subs as [| [c []] r IH]; cbn [deliver]; [reflexivity |].
  destruct (String.eqb c channel).
  - erewrite bind_run by exact H. exact IH.
  - erewrite bind_run by reflexivity. exact IH.
Qed.

Lemma settingsToggleClicked_run (s : State) :
  hover_only s ->
  exists s',
    settingsToggleClicked s = Ok tt s'
    /\ trace s'
       = trace s ++ [SetCurrentBlock (hoveredBlock s);
                     Emit SettingsClicked (hoveredBlock s)]
    /\ nodes s' = nodes s
    /\ hoveredBlock s' = hoveredBlock s.
Proof.
  intros Hr. eexists. split.
  { unfold settingsToggleClicked, emitBlockSettingsClicked, emit,
      Collab.set_currentBlock.
    mrun. apply deliver_settingsClicked. exact Hr. }
  msimpl. split; [now rewrite <- app_assoc |]. split; reflexivity.
Qed.

(* ------------------------------------------------------------------ *)
(** ** activate, the opened getter, repeated moves *)

(** X1. [activate(block)] only emits "settings clicked" with the block
    it is given: unlike the toggler click it leaves the current block of
    the Block Sequence, the hovered block and the nodes as they are. *)
Theorem activate_only_emits (s : State) (b : Block) :
  reachable s ->
  activate b s
  = Ok tt (set_trace (trace s ++ [Emit SettingsClicked (Some b)]) s).
Proof.
  intros Hr. apply reachable_hover_only in Hr.
  unfold activate, emitBlockSettingsClicked, emit.
  erewrite bind_run by reflexivity. erewrite bind_run by reflexivity.
  apply deliver_settingsClicked. exact Hr.
Qed.

Lemma activate_only_emits_witness :
  let w := mkWindow 800 1024 0 in
  let A := mkBlock 0 (mkHolder 120 40 300) "8px" false true in
  let B := mkBlock 1 (mkHolder 160 40 340) "8px" false true in
  let s0 := init (Some false) (mkEditor [A; B] 0 false false w false) in
  let s := run [OpToggleReadOnly false; OpRunIdle; OpHover A] s0 in
  activate B s = Ok tt (set_trace (trace s ++ [Emit SettingsClicked (Some B)]) s).
Proof.
  intros w A B s0 s.
  apply (activate_only_emits s B). apply reachable_run, reach_init.
Defined.

(** X2. The [opened] getter throws a TypeError while the wrapper does
    not exist; on a built toolbar it answers true after [moveAndOpen]
    with a block and, outside read-only mode, false after [close]. *)
Theorem opened_getter (s : State) (b : Block) :
  (wrapper (nodes s) = None -> opened s = Throw TypeError s)
  /\
  (built s ->
   exists s1,
     moveAndOpen (Some b) s = Ok tt s1
     /\ opened s1 = Ok true s1
     /\ (readOnly_isEnabled (editor s) = false ->
         exists s2, close s1 = Ok tt s2 /\ opened s2 = Ok false s2)).
Proof.
  split.
  - intros E. unfold opened. mrun. now rewrite E.
  - intros Hb. destruct (built_nodes s Hb) as (w & a & t & Ew & Ea & Et).
    exists (moved s b w a t).
    split; [now apply moveAndOpen_built_run |]. split.
    + unfold opened, moved. mrun. now rewrite contains_add.
    + intros Hr. eexists. split; [apply close_run; [exact Hr | reflexivity ..] |].
      unfold opened, closed. mrun.
      rewrite classList_assign_top. msimpl. now rewrite contains_remove.
Qed.

Lemma opened_getter_witness :
  let w := mkWindow 800 1024 0 in
  let A := mkBlock 0 (mkHolder 120 40 300) "8px" false true in
  let s0 := init (Some false) (mkEditor [A] 0 false false w false) in
  let s := run [OpToggleReadOnly false; OpRunIdle] s0 in
  opened s0 = Throw TypeError s0
  /\ exists s1,
       moveAndOpen (Some A) s = Ok tt s1
       /\ opened s1 = Ok true s1
       /\ exists s2, close s1 = Ok tt s2 /\ opened s2 = Ok false s2.
Proof.
  intros w A s0 s. split.
  - apply (proj1 (opened_getter s0 A)). reflexivity.
  - destruct (proj2 (opened_getter s A)) as (s1 & H1 & H2 & H3).
    { unfold built. repeat split; discriminate. }
    exists s1. split; [exact H1 |]. split; [exact H2 |]. apply H3. reflexivity.
Defined.

(** X3. On a built toolbar [moveAndOpen] is idempotent: a second call
    with the same argument, nothing else having happened, leaves the
    state of the first. *)
Theorem moveAndOpen_idempotent (s : State) (arg : option Block) :
  built s ->
  final (moveAndOpen arg (final (moveAndOpen arg s)))
  = final (moveAndOpen arg s).
Proof.
  intros Hb. destruct (built_nodes s Hb) as (w & a & t & Ew & Ea & Et).
  assert (Hsome : forall b,
    final (moveAndOpen (Some b) (final (moveAndOpen (Some b) s)))
    = final (moveAndOpen (Some b) s)).
  { intros b. rewrite (moveAndOpen_built_run s b w a t Ew Ea Et). cbn [final].
    now rewrite moveAndOpen_fixed. }
  destruct arg as [b |]; [apply Hsome |].
  rewrite (moveAndOpen_default s).
  destruct (Collab.currentBlock (editor s)) as [b |] eqn:Ec.
  - rewrite (moveAndOpen_built_run s b w a t Ew Ea Et). cbn [final].
    rewrite moveAndOpen_default.
    change (Collab.currentBlock (editor (moved s b w a t)))
      with (Collab.currentBlock (editor s)).
    rewrite Ec. now rewrite moveAndOpen_fixed.
  - cbn [final]. rewrite moveAndOpen_default, Ec. reflexivity.
Qed.

Lemma moveAndOpen_idempotent_witness :
  let w := mkWindow 800 1024 0 in
  let A := mkBlock 0 (mkHolder 120 40 300) "8px" true true in
  let s0 := init (Some false) (mkEditor [A] 0 false false w false) in
  let s := run [OpToggleReadOnly false; OpRunIdle] s0 in
  final (moveAndOpen None (final (moveAndOpen None s)))
  = final (moveAndOpen None s).
Proof.
  intros w A s0 s. apply (moveAndOpen_idempotent s None).
  unfold built. repeat split; discriminate.
Defined.

(* ------------------------------------------------------------------ *)
(** ** Hovers *)

(** X4. On a built toolbar with at least one subscription, however
    many rebuilds have left theirs, a hover ends exactly as a single
    [moveAndOpen] of the hovered block after the emit does. *)
Theorem hover_runs_as_one (s : State) (b : Block) :
  reachable s ->
  built s ->
  subscriptions s <> [] ->
  hover b s
  = moveAndOpen (Some b)
      (set_trace (trace s ++ [Emit BlockHovered (Some b)]) s).
Proof.
  intros Hr Hb Hs. apply reachable_hover_only in Hr. unfold hover_only in Hr.
  destruct (built_nodes s Hb) as (w & a & t & Ew & Ea & Et).
  unfold hover, emit.
  erewrite bind_run by reflexivity. erewrite bind_run by reflexivity.
  set (s1 := set_trace _ s).
  change (subscriptions s1) with (subscriptions s).
  destruct (subscriptions s) as [| [c []] r]; [congruence |].
  inversion Hr as [| ? ? Hc _]; subst. cbn [fst] in Hc. subst c.
  cbn [deliver]. rewrite String.eqb_refl.
  erewrite bind_run by exact (moveAndOpen_built_run s1 b w a t Ew Ea Et).
  rewrite (moveAndOpen_built_run s1 b w a t Ew Ea Et).
  apply deliver_fixed, moveAndOpen_fixed.
Qed.

Lemma hover_runs_as_one_witness :
  let w := mkWindow 800 1024 0 in
  let A := mkBlock 0 (mkHolder 120 40 300) "8px" false true in
  let s0 := init (Some false) (mkEditor [A] 0 false false w false) in
  let s :=
    run [OpToggleReadOnly false; OpRunIdle; OpToggleReadOnly true;
         OpToggleReadOnly false; OpRunIdle] s0 in
  length (subscriptions s) = 2%nat
  /\ hover A s
     = moveAndOpen (Some A)
         (set_trace (trace s ++ [Emit BlockHovered (Some A)]) s).
Proof.
  intros w A s0 s. split; [reflexivity |].
  apply (hover_runs_as_one s A).
  - apply reachable_run, reach_init.
  - unfold built. repeat split; discriminate.
  - discriminate.
Defined.

Lemma deliver_unbuilt (subs : list (string * Subscriber)) (channel : string)
    (payload : option Block) (s : State) :
  wrapper (nodes s) = None ->
  deliver subs channel payload s = Ok tt s.
Proof.
  intros E. induction subs as [| [c []] r IH]; cbn [deliver]; [reflexivity |].
  destruct (String.eqb c channel).
  - erewrite bind_run by (apply moveAndOpen_noop; right; exact E). exact IH.
  - erewrite bind_run by reflexivity. exact IH.
Qed.

(** X5. While the wrapper does not exist (before the first build, after
    a teardown) a hover changes nothing, whatever is still subscribed:
    the event is emitted and every handler returns at its guard. *)
Theorem hover_unbuilt (s : State) (b : Block) :
  wrapper (nodes s) = None ->
  hover b s
  = Ok tt (set_trace (trace s ++ [Emit BlockHovered (Some b)]) s).
Proof.
  intros E. unfold hover, emit.
  erewrite bind_run by reflexivity. erewrite bind_run by reflexivity.
  apply deliver_unbuilt. exact E.
Qed.

Lemma hover_unbuilt_witness :
  let w := mkWindow 800 1024 0 in
  let A := mkBlock 0 (mkHolder 120 40 300) "8px" false true in
  let s0 := init (Some false) (mkEditor [A] 0 false false w false) in
  let s := run [OpToggleReadOnly false; OpRunIdle; OpToggleReadOnly true] s0 in
  subscriptions s <> []
  /\ hover A s = Ok tt (set_trace (trace s ++ [Emit BlockHovered (Some A)]) s).
Proof.
  intros w A s0 s. split; [discriminate |].
  apply (hover_unbuilt s A). reflexivity.
Defined.

(* ------------------------------------------------------------------ *)
(** ** What the methods leave of the bindings *)

(** Closes a step that touches neither the subscriptions, nor the
    listeners, nor the identities of the elements. *)
Ltac frame_bindings F :=
  match goal with
  | |- preserves _ (modify _) => apply preserves_modify; intros ? ?
  | |- preserves _ (on_wrapper _) => apply preserves_on_wrapper; intros ? ? ? ?
  | |- preserves _ (on_actions _) => apply preserves_on_actions; intros ? ? ? ?
  | |- preserves _ (on_settingsToggler _) =>
      apply preserves_on_settingsToggler; intros ? ? ? ?
  end;
  eapply F; [| | | | eassumption];
  first
    [ reflexivity
    | unfold toggler_id; msimpl;
      match goal with
      | E : settingsToggler _ = _ |- _ => rewrite E
      end;
      reflexivity ].

Section BindingsFrame.

Variable P : State -> Prop.

Hypothesis P_frame :
  forall s s',
    subscriptions s' = subscriptions s ->
    listeners s' = listeners s ->
    nextId s' = nextId s ->
    toggler_id s' = toggler_id s ->
    P s -> P s'.

Lemma frame_open (b : bool) : preserves P (open b).
Proof.
  unfold open, blockActions_show, blockActions_hide.
  pres; frame_bindings P_frame.
Qed.

Lemma frame_moveAndOpen (arg : option Block) : preserves P (moveAndOpen arg).
Proof.
  unfold moveAndOpen, blockTunesToggler_hide, blockTunesToggler_show.
  pres; try apply frame_open; frame_bindings P_frame.
Qed.

Lemma frame_close : preserves P close.
Proof.
  unfold close, blockActions_hide, reset. pres; frame_bindings P_frame.
Qed.

Lemma frame_deliver (subs : list (string * Subscriber)) (channel : string)
    (payload : option Block) :
  preserves P (deliver subs channel payload).
Proof.
  induction subs as [| [c []] r IH]; cbn [deliver]; pres;
    solve [apply frame_moveAndOpen | exact IH].
Qed.

Lemma frame_emit (channel : string) (payload : option Block) :
  preserves P (emit channel payload).
Proof.
  unfold emit, effect. pres; try apply frame_deliver; frame_bindings P_frame.
Qed.

Lemma frame_togglerMousedown : preserves P togglerMousedown.
Proof.
  unfold togglerMousedown, settingsToggleClicked, emitBlockSettingsClicked,
    Collab.set_currentBlock, effect.
  pres; try apply frame_emit; frame_bindings P_frame.
Qed.

Lemma frame_dispatch (ls : list Listener) (target : nat) (type : string) :
  preserves P (dispatch ls target type).
Proof.
  induction ls as [| [t ty c] r IH]; cbn [dispatch]; pres;
    solve [apply frame_togglerMousedown | exact IH].
Qed.

Lemma frame_clickSettingsToggler : preserves P clickSettingsToggler.
Proof.
  unfold clickSettingsToggler. pres. apply frame_dispatch.
Qed.

End BindingsFrame.

(* ------------------------------------------------------------------ *)
(** ** Subscriptions are never removed *)

Lemma subs_prefix_frame (l0 : list (string * Subscriber)) (s s' : State) :
  subscriptions s' = subscriptions s ->
  listeners s' = listeners s ->
  nextId s' = nextId s ->
  toggler_id s' = toggler_id s ->
  (exists l, subscriptions s = l0 ++ l) ->
  exists l, subscriptions s' = l0 ++ l.
Proof. intros E _ _ _ H. now rewrite E. Qed.

Lemma subs_prefix_exec (l0 : list (string * Subscriber)) (o : Op) (s : State) :
  (exists l, subscriptions s = l0 ++ l) ->
  exists l, subscriptions (exec o s) = l0 ++ l.
Proof.
  pose proof (subs_prefix_frame l0) as F.
  destruct o; cbn [exec]; intros H.
  - now apply (frame_moveAndOpen _ F).
  - now apply (frame_open _ F).
  - now apply (frame_close _ F).
  - now apply (frame_emit _ F).
  - revert H.
    unfold toggleReadOnly, destroy, disableModuleBindings, Collab.requestIdleCallback,
      Collab.removeAllNodes, Collab.readOnlyMutableListeners_clearAll.
    apply (preserves_bind (fun s => exists l, subscriptions s = l0 ++ l));
      [apply preserves_get | intros s0].
    pres; apply preserves_modify; intros s1 H; exact H.
  - revert H. unfold runIdle, run_idle, drawUI.
    apply (preserves_bind (fun s => exists l, subscriptions s = l0 ++ l));
      [apply preserves_get | intros s0].
    pres.
    + apply preserves_modify; intros s1 H; exact H.
    + intros s1 H. rewrite make_run. exact H.
    + unfold enableModuleBindings, Collab.readOnlyMutableListeners_on,
        Collab.isMobileScreen, Collab.eventsDispatcher_on.
      pres; apply preserves_modify; intros s1 [l1 H1]; msimpl.
      * exists l1. exact H1.
      * exists (l1 ++ [(BlockHovered, OnBlockHovered)]).
        now rewrite H1, app_assoc.
  - now apply (frame_emit _ F).
  - now apply (frame_clickSettingsToggler _ F).
  - exact H.
Qed.

(** X6. Nothing ever unsubscribes: whatever the toolbar goes through
    (moves, closes, hovers, clicks, read-only toggles, rebuilds), the
    subscriptions it had are still there, in order, before any new one;
    entering read-only in particular keeps them all. *)
Theorem subscriptions_never_removed (ops : list Op) (s : State) :
  (exists l, subscriptions (run ops s) = subscriptions s ++ l)
  /\ subscriptions (exec (OpToggleReadOnly true) s) = subscriptions s.
Proof.
  split.
  - assert (H : forall l0 s, (exists l, subscriptions s = l0 ++ l) ->
                exists l, subscriptions (run ops s) = l0 ++ l).
    { induction ops as [| o ops IH]; intros l0 s1 H; cbn [run fold_left];
        [exact H |].
      apply IH. apply subs_prefix_exec, H. }
    apply H. exists []. now rewrite app_nil_r.
  - cbn [exec]. now rewrite (toggleReadOnly_teardown s true eq_refl).
Qed.

(* ------------------------------------------------------------------ *)
(** ** One listener for the toggler *)

Lemma binding_inv_frame (s s' : State) :
  subscriptions s' = subscriptions s ->
  listeners s' = listeners s ->
  nextId s' = nextId s ->
  toggler_id s' = toggler_id s ->
  binding_inv s -> binding_inv s'.
Proof.
  intros _ El En Et H. unfold binding_inv in *. now rewrite El, En, Et.
Qed.

Lemma binding_inv_teardown (s : State) (readOnlyEnabled : bool) :
  binding_inv s -> binding_inv (final (toggleReadOnly readOnlyEnabled s)).
Proof.
  intros H.
  destruct (negb readOnlyEnabled && negb (JS.nullish (hideConfigToolbar s) true))%bool
    eqn:E.
  - unfold toggleReadOnly. erewrite bind_run by reflexivity. cbv beta.
    rewrite E. exact H.
  - rewrite (toggleReadOnly_teardown s readOnlyEnabled E). cbn [final].
    unfold binding_inv, toggler_id. msimpl.
    split; [constructor |]. split; [constructor |]. discriminate.
Qed.

Lemma binding_inv_runIdle (s : State) :
  binding_inv s -> binding_inv (final (runIdle s)).
Proof.
  intros H.
  destruct (idleQueue s) as [| [cb tm] q] eqn:Eq.
  - unfold runIdle. erewrite bind_run by reflexivity. cbv beta. rewrite Eq.
    exact H.
  - rewrite (runIdle_run s cb tm q Eq). unfold drawUI.
    erewrite bind_run by apply make_run.
    erewrite enableModuleBindings_run by reflexivity.
    destruct H as (Hd & Hlt & _).
    assert (Hinv : forall s',
      listeners s'
      = listeners s ++ [OnTogglerMousedown (3 + nextId s) "mousedown" true] ->
      nextId s' = (4 + nextId s)%nat ->
      toggler_id s' = Some (3 + nextId s)%nat ->
      binding_inv s').
    { intros s' El En Et. unfold binding_inv. rewrite El, En, Et.
      split; [| split].
      - rewrite map_app. apply NoDup_app;
          [exact Hd | cbn [map]; apply NoDup_cons; [intros [] | constructor] |].
        intros x Hin [Hx | []]. cbn [map target_of] in Hx. subst x.
        apply in_map_iff in Hin. destruct Hin as (l & Hl & Hin).
        rewrite Forall_forall in Hlt. specialize (Hlt l Hin). lia.
      - apply Forall_app. split.
        + eapply Forall_impl; [| exact Hlt]. intros l Hl. cbv beta in *. lia.
        + constructor; [cbn [target_of]; lia | constructor].
      - intros t Ht. injection Ht as <-. split; [lia |].
        apply in_or_app. right. now left. }
    cbn [final].
    destruct (Qle_bool (innerWidth (window (editor _))) 650);
      apply Hinv; reflexivity.
Qed.

Lemma reachable_binding_inv (s : State) : reachable s -> binding_inv s.
Proof.
  induction 1 as [cfg e | o s _ IH].
  - unfold binding_inv, toggler_id. cbn.
    split; [constructor |]. split; [constructor |]. discriminate.
  - destruct o; cbn [exec].
    + exact (frame_moveAndOpen _ binding_inv_frame _ s IH).
    + exact (frame_open _ binding_inv_frame _ s IH).
    + exact (frame_close _ binding_inv_frame s IH).
    + exact (frame_emit _ binding_inv_frame _ _ s IH).
    + apply binding_inv_teardown, IH.
    + apply binding_inv_runIdle, IH.
    + exact (frame_emit _ binding_inv_frame _ _ s IH).
    + exact (frame_clickSettingsToggler _ binding_inv_frame s IH).
    + exact IH.
Qed.

Lemma dispatch_no_match (ls : list Listener) (target : nat) (type : string)
    (s : State) :
  ~ In target (map target_of ls) ->
  dispatch ls target type s = Ok tt s.
Proof.
  induction ls as [| [t ty c] r IH]; intros Hn; cbn [dispatch]; [reflexivity |].
  cbn [map target_of In] in Hn.
  destruct (Nat.eqb_spec t target) as [E | E]; [tauto |].
  cbn [andb]. erewrite bind_run by reflexivity. apply IH. tauto.
Qed.

Lemma dispatch_once (ls : list Listener) (target : nat) (s : State) :
  NoDup (map target_of ls) ->
  In (OnTogglerMousedown target "mousedown" true) ls ->
  dispatch ls target "mousedown" s = togglerMousedown s.
Proof.
  induction ls as [| [t ty c] r IH]; intros Hd Hin; [destruct Hin |].
  cbn [map target_of] in Hd. apply NoDup_cons_iff in Hd. destruct Hd as [Hn Hd].
  cbn [dispatch]. destruct Hin as [E | Hin].
  - injection E as -> -> ->. clear IH.
    rewrite Nat.eqb_refl, String.eqb_refl. cbn [andb].
    unfold bind at 1.
    destruct (togglerMousedown s) as [[] s' | e s']; [| reflexivity].
    now apply dispatch_no_match.
  - destruct (Nat.eqb_spec t target) as [E | E].
    + exfalso. apply Hn. subst t.
      apply in_map_iff. now exists (OnTogglerMousedown target "mousedown" true).
    + cbn [andb]. erewrite bind_run by reflexivity. now apply IH.
Qed.

(** X7. However often the toolbar was rebuilt, a mousedown on the
    settings toggler it holds runs the toggler's closure exactly once:
    the listeners left on the togglers of earlier builds do not fire. *)
Theorem click_runs_once (s : State) (t : Dom.Element) :
  reachable s ->
  settingsToggler (nodes s) = Some t ->
  clickSettingsToggler s = togglerMousedown s.
Proof.
  intros Hr Et. apply reachable_binding_inv in Hr.
  destruct Hr as (Hd & _ & Hin).
  unfold clickSettingsToggler. erewrite bind_run by reflexivity. cbv beta.
  rewrite Et. apply dispatch_once; [exact Hd |].
  apply Hin. unfold toggler_id. now rewrite Et.
Qed.

Lemma click_runs_once_witness :
  let w := mkWindow 800 1024 0 in
  let A := mkBlock 0 (mkHolder 120 40 300) "8px" false true in
  let s0 := init (Some false) (mkEditor [A] 0 false false w false) in
  let s :=
    run [OpToggleReadOnly false; OpToggleReadOnly false; OpRunIdle; OpRunIdle;
         OpHover A] s0 in
  length (listeners s) = 2%nat
  /\ clickSettingsToggler s = togglerMousedown s.
Proof.
  intros w A s0 s. split; [reflexivity |].
  apply (click_runs_once s (Dom.mkElement 7 [CSS.settingsToggler] "")).
  - apply reachable_run, reach_init.
  - reflexivity.
Defined.

(* ------------------------------------------------------------------ *)
(** ** The move-down tune, whatever the current index *)

Lemma handleClick_no_next (s : State) :
  Collab.nth_block (blocks (editor s)) (currentBlockIndex (editor s) + 1) = None ->
  MoveDownTune.handleClick s = Throw MoveDownTune.boundary s.
Proof.
  intros H. unfold MoveDownTune.handleClick, Collab.getCurrentBlockIndex,
    Collab.getBlockByIndex. mrun. now rewrite H.
Qed.

Lemma handleClick_next (s : State) (nb : Block) :
  Collab.nth_block (blocks (editor s)) (currentBlockIndex (editor s) + 1) = Some nb ->
  exists s',
    MoveDownTune.handleClick s = Ok tt s'
    /\ trace s'
       = trace s ++ [ScrollTo (JS.of_Z 0)
                       (MoveDownTune.scrollOffset (window (editor s)) nb);
                     BlocksMove (currentBlockIndex (editor s) + 1);
                     ToggleBlockSettings (Some true)]
    /\ blockSettingsOpened (editor s') = true
    /\ nodes s' = nodes s
    /\ hoveredBlock s' = hoveredBlock s.
Proof.
  intros H. eexists. split.
  { unfold MoveDownTune.handleClick, Collab.getCurrentBlockIndex,
      Collab.getBlockByIndex, Collab.scrollTo, Collab.move,
      Collab.toggleBlockSettings.
    mrun. rewrite H. mrun. reflexivity. }
  destruct (Collab.nth_block (blocks (editor s)) (currentBlockIndex (editor s)));
    msimpl; rewrite ?H; msimpl; rewrite <- !app_assoc; repeat split.
Qed.

(** X8. [handleClick] of the move-down tune throws its boundary error,
    changing nothing, exactly when no block follows the current index;
    otherwise it returns after the scroll request, the move to the next
    index and the opening of the Block Settings. The guard looks at the
    next index only: with no current block ([-1]) and a sequence that is
    not empty, there is no error and [move(0)] is issued. *)
Theorem moveDown_outcome (s : State) :
  (Collab.nth_block (blocks (editor s)) (currentBlockIndex (editor s) + 1) = None ->
   MoveDownTune.handleClick s = Throw MoveDownTune.boundary s)
  /\
  (forall nb,
     Collab.nth_block (blocks (editor s)) (currentBlockIndex (editor s) + 1) = Some nb ->
     exists s',
       MoveDownTune.handleClick s = Ok tt s'
       /\ trace s'
          = trace s ++ [ScrollTo (JS.of_Z 0)
                          (MoveDownTune.scrollOffset (window (editor s)) nb);
                        BlocksMove (currentBlockIndex (editor s) + 1);
                        ToggleBlockSettings (Some true)]
       /\ blockSettingsOpened (editor s') = true
       /\ nodes s' = nodes s
       /\ hoveredBlock s' = hoveredBlock s)
  /\
  (forall b0 r,
     currentBlockIndex (editor s) = -1 ->
     blocks (editor s) = b0 :: r ->
     exists s',
       MoveDownTune.handleClick s = Ok tt s'
       /\ trace s'
          = trace s ++ [ScrollTo (JS.of_Z 0)
                          (MoveDownTune.scrollOffset (window (editor s)) b0);
                        BlocksMove 0;
                        ToggleBlockSettings (Some true)]).
Proof.
  split; [apply handleClick_no_next |].
  split; [apply handleClick_next |].
  intros b0 r Hc Hb.
  destruct (handleClick_next s b0) as (s' & H1 & H2 & _).
  { rewrite Hc, Hb. reflexivity. }
  exists s'. split; [exact H1 |]. rewrite H2, Hc. reflexivity.
Qed.

Lemma moveDown_outcome_witness :
  let w := mkWindow 800 1024 0 in
  let A := mkBlock 0 (mkHolder 120 40 300) "8px" false true in
  let B := mkBlock 1 (mkHolder 160 40 340) "8px" false true in
  let last := init None (mkEditor [A; B] 1 false false w false) in
  let none := init None (mkEditor [A; B] (-1) false false w false) in
  MoveDownTune.handleClick last = Throw MoveDownTune.boundary last
  /\ exists s',
       MoveDownTune.handleClick none = Ok tt s'
       /\ trace s'
          = trace none ++ [ScrollTo (JS.of_Z 0)
                             (MoveDownTune.scrollOffset (window (editor none)) A);
                           BlocksMove 0;
                           ToggleBlockSettings (Some true)].
Proof.
  intros w A B last none. split.
  - apply (proj1 (moveDown_outcome last)). reflexivity.
  - apply (proj2 (proj2 (moveDown_outcome none)) A [B]); reflexivity.
Defined.

(** X9. The scroll offset [handleClick] asks for is a number, never
    NaN, and not negative as long as the window's scroll position and
    the next block's height are not. *)
Theorem scrollOffset_nonneg (w : Window) (nb : Block) :
  (0 <= scrollY w)%Q ->
  (0 <= offsetHeight (holder nb))%Q ->
  exists q, MoveDownTune.scrollOffset w nb = JS.Num q /\ (0 <= q)%Q.
Proof.
  intros Hy Hh. unfold MoveDownTune.scrollOffset.
  destruct (JS.lt _ _); eexists; (split; [reflexivity |]).
  - change 0%Q with (0 + 0)%Q. now apply Qplus_le_compat.
  - apply Qabs_nonneg.
Qed.

Lemma scrollOffset_nonneg_witness :
  let w := mkWindow 800 1024 25 in
  let B := mkBlock 1 (mkHolder 160 40 340) "8px" false true in
  exists q, MoveDownTune.scrollOffset w B = JS.Num q /\ (0 <= q)%Q.
Proof.
  intros w B. apply (scrollOffset_nonneg w B); discriminate.
Defined.

(** X10. The move-down tune never marks its entry disabled and asks for
    no confirmation, wherever the current block is: a single activation
    of the entry is [handleClick], so at the last block the entry is
    offered all the same and activating it throws the boundary error. *)
Theorem moveDown_entry (s : State) :
  exists item,
    MoveDownTune.render s = Ok item s
    /\ isDisabled item = None
    /\ confirmation item = None
    /\ (Collab.nth_block (blocks (editor s)) (currentBlockIndex (editor s) + 1) = None ->
        SettingsPanel.activate item s = Throw MoveDownTune.boundary s)
    /\ (forall s',
          MoveDownTune.handleClick s = Ok tt s' ->
          SettingsPanel.activate item s = Ok item s').
Proof.
  eexists. split; [reflexivity |]. split; [reflexivity |]. split; [reflexivity |].
  unfold SettingsPanel.activate.
  cbn [confirmation onActivate SettingsPanel.run]. split.
  - intros H. unfold bind. now rewrite handleClick_no_next.
  - intros s' H. unfold bind. now rewrite H.
Qed.

Lemma moveDown_entry_witness :
  let w := mkWindow 800 1024 0 in
  let A := mkBlock 0 (mkHolder 120 40 300) "8px" false true in
  let s := init None (mkEditor [A] 0 false false w false) in
  exists item,
    MoveDownTune.render s = Ok item s
    /\ isDisabled item = None
    /\ SettingsPanel.activate item s = Throw MoveDownTune.boundary s.
Proof.
  intros w A s.
  destruct (moveDown_entry s) as (item & H1 & H2 & _ & H4 & _).
  exists item. split; [exact H1 |]. split; [exact H2 |]. apply H4. reflexivity.
Defined.

(* ------------------------------------------------------------------ *)
(** ** The delete tune, whatever the current index *)

(** X11. [render] of the delete tune reads [editable] of the block at
    the current index: with no block there (no current block, or an
    index past the end) it throws a TypeError; with one it returns,
    changing nothing, an entry disabled exactly when the block is not
    editable, with a confirmation and no [onActivate] of its own. *)
Theorem delete_render_outcome (s : State) :
  match Collab.currentBlock (editor s) with
  | None => DeleteTune.render s = Throw TypeError s
  | Some b =>
      exists item,
        DeleteTune.render s = Ok item s
        /\ isDisabled item = Some (negb (editable b))
        /\ onActivate item = None
        /\ option_map c_onActivate (confirmation item) = Some Delete_handleClick
  end.
Proof.
  unfold DeleteTune.render, Collab.getCurrentBlockIndex, Collab.getBlockByIndex,
    Collab.currentBlock.
  mrun. destruct (Collab.nth_block _ _) as [b |]; [| reflexivity].
  eexists. split; [reflexivity |]. repeat split.
Qed.

(* ------------------------------------------------------------------ *)
(** ** Rebuilds that were not asked for once *)

(** What one run of a pending idle callback leaves. *)
Lemma rebuild_result (s : State) (cb : IdleCallback) (tm : Z)
    (q : list (IdleCallback * Z)) :
  idleQueue s = (cb, tm) :: q ->
  let s' := final (runIdle s) in
  idleQueue s' = q
  /\ nextId s' = (4 + nextId s)%nat
  /\ listeners s'
     = listeners s ++ [OnTogglerMousedown (3 + nextId s) "mousedown" true]
  /\ trace s'
     = trace s ++ [TooltipOnHover (3 + nextId s) 400; AppendToEditor (nextId s)]
  /\ nodes s'
     = mkNodes (Some (Dom.mkElement (nextId s) [CSS.toolbar] ""))
               (Some (Dom.mkElement (1 + nextId s) [CSS.content] ""))
               (Some (Dom.mkElement (2 + nextId s) [CSS.actions] ""))
               (plusButton (nodes s))
               (Some (Dom.mkElement (3 + nextId s) [CSS.settingsToggler] ""))
  /\ hideConfigToolbar s' = hideConfigToolbar s
  /\ editor s' = editor s.
Proof.
  intros Eq s'. subst s'. rewrite (runIdle_run s cb tm q Eq). unfold drawUI.
  erewrite bind_run by apply make_run.
  erewrite enableModuleBindings_run by reflexivity. cbn [final].
  destruct (Qle_bool (innerWidth (window (editor _))) 650); msimpl;
    rewrite <- app_assoc; repeat split.
Qed.

(** X12. Leaving read-only twice in a row queues two rebuilds: nothing
    keeps a single task outstanding. When both have run, two wrappers
    were appended to the editor, none removed; the module holds the
    nodes of the second, and the mousedown listener of the first toggler
    is still bound. *)
Theorem double_schedule (s : State) :
  hideConfigToolbar s = Some false ->
  idleQueue s = [] ->
  let s2 := run [OpToggleReadOnly false; OpToggleReadOnly false] s in
  let s4 := run [OpRunIdle; OpRunIdle] s2 in
  idleQueue s2 = [(RebuildUI, 2000); (RebuildUI, 2000)]
  /\ nodes s2 = nodes s
  /\ trace s4
     = trace s ++ [TooltipOnHover (3 + nextId s) 400; AppendToEditor (nextId s);
                   TooltipOnHover (7 + nextId s) 400; AppendToEditor (4 + nextId s)]
  /\ option_map Dom.eid (wrapper (nodes s4)) = Some (4 + nextId s)%nat
  /\ listeners s4
     = listeners s ++ [OnTogglerMousedown (3 + nextId s) "mousedown" true;
                       OnTogglerMousedown (7 + nextId s) "mousedown" true]
  /\ idleQueue s4 = [].
Proof.
  intros H Hq s2 s4.
  assert (E2 : s2 = set_idleQueue [(RebuildUI, 2000); (RebuildUI, 2000)] s).
  { subst s2. cbn [run fold_left exec].
    rewrite (toggleReadOnly_schedule s H). cbn [final].
    rewrite toggleReadOnly_schedule by exact H. cbn [final].
    unfold set_idleQueue. msimpl. now rewrite Hq. }
  split; [rewrite E2; reflexivity |]. split; [rewrite E2; reflexivity |].
  subst s4. cbn [run fold_left exec].
  destruct (rebuild_result s2 RebuildUI 2000 [(RebuildUI, 2000)])
    as (Q1 & N1 & L1 & T1 & _ & _ & _); [rewrite E2; reflexivity |].
  destruct (rebuild_result (final (runIdle s2)) RebuildUI 2000 [] Q1)
    as (Q2 & N2 & L2 & T2 & D2 & _ & _).
  rewrite T2, L2, D2, Q2, T1, L1, N1, E2. msimpl.
  rewrite <- !app_assoc. repeat split.
Qed.

Lemma double_schedule_witness :
  let w := mkWindow 800 1024 0 in
  let A := mkBlock 0 (mkHolder 120 40 300) "8px" false true in
  let s := init (Some false) (mkEditor [A] 0 false false w false) in
  let s4 :=
    run [OpRunIdle; OpRunIdle]
      (run [OpToggleReadOnly false; OpToggleReadOnly false] s) in
  trace s4
  = [TooltipOnHover 3 400; AppendToEditor 0; TooltipOnHover 7 400; AppendToEditor 4]
  /\ option_map Dom.eid (wrapper (nodes s4)) = Some 4%nat.
Proof.
  intros w A s s4.
  destruct (double_schedule s eq_refl eq_refl) as (_ & _ & H3 & H4 & _).
  split; [exact H3 | exact H4].
Defined.

(** X13. Entering read-only does not cancel a rebuild that is pending:
    leave, enter, and the idle callback still builds the toolbar and
    binds the toggler, one task fewer being left in the queue. *)
Theorem pending_rebuild_survives_teardown (s : State) :
  hideConfigToolbar s = Some false ->
  let s' := run [OpToggleReadOnly false; OpToggleReadOnly true; OpRunIdle] s in
  built s'
  /\ listeners s' = [OnTogglerMousedown (3 + nextId s) "mousedown" true]
  /\ length (idleQueue s') = length (idleQueue s).
Proof.
  intros H s'. subst s'. cbn [run fold_left exec].
  rewrite (toggleReadOnly_schedule s H). cbn [final].
  rewrite (toggleReadOnly_teardown _ true eq_refl). cbn [final].
  set (s2 := set_listeners [] _).
  assert (Hq : exists cb tm q,
             idleQueue s2 = (cb, tm) :: q /\ length q = length (idleQueue s)).
  { subst s2. msimpl. destruct (idleQueue s) as [| [cb tm] q]; cbn [app].
    - now exists RebuildUI, 2000, [].
    - exists cb, tm, (q ++ [(RebuildUI, 2000)]). split; [reflexivity |].
      rewrite length_app. cbn [length]. lia. }
  destruct Hq as (cb & tm & q & Eq & Hl).
  destruct (rebuild_result s2 cb tm q Eq) as (Q1 & _ & L1 & _ & D1 & _ & _).
  split; [| split].
  - unfold built. rewrite D1. msimpl. repeat split; discriminate.
  - rewrite L1. reflexivity.
  - rewrite Q1. exact Hl.
Qed.

Lemma pending_rebuild_survives_teardown_witness :
  let w := mkWindow 800 1024 0 in
  let A := mkBlock 0 (mkHolder 120 40 300) "8px" false true in
  let s := init (Some false) (mkEditor [A] 0 false true w false) in
  built (run [OpToggleReadOnly false; OpToggleReadOnly true; OpRunIdle] s).
Proof.
  intros w A s.
  exact (proj1 (pending_rebuild_survives_teardown s eq_refl)).
Defined.

(* ------------------------------------------------------------------ *)
(** ** Opening and closing against the read-only flag *)

(** X14. Only [close] looks at the read-only flag. On a built toolbar in
    read-only mode [moveAndOpen] opens the toolbar and shows its
    actions as usual, and [close] then leaves it open. *)
Theorem readOnly_open_stays_open (s : State) (b : Block) :
  built s ->
  readOnly_isEnabled (editor s) = true ->
  exists s1,
    moveAndOpen (Some b) s = Ok tt s1
    /\ isOpened s1 = true
    /\ actionsVisible s1 = true
    /\ close s1 = Ok tt s1.
Proof.
  intros Hb Hr. destruct (built_nodes s Hb) as (w & a & t & Ew & Ea & Et).
  exists (moved s b w a t). split; [now apply moveAndOpen_built_run |].
  split; [unfold moved; msimpl; apply contains_add |].
  split; [unfold moved; msimpl; apply contains_add |].
  apply close_readOnly. exact Hr.
Qed.

Lemma readOnly_open_stays_open_witness :
  let w := mkWindow 800 1024 0 in
  let A := mkBlock 0 (mkHolder 120 40 300) "8px" false true in
  let s0 := init (Some false) (mkEditor [A] 0 false true w false) in
  let s := run [OpToggleReadOnly false; OpToggleReadOnly true; OpRunIdle] s0 in
  exists s1,
    moveAndOpen (Some A) s = Ok tt s1
    /\ isOpened s1 = true
    /\ actionsVisible s1 = true
    /\ close s1 = Ok tt s1.
Proof.
  intros w A s0 s. apply (readOnly_open_stays_open s A); [| reflexivity].
  unfold built. repeat split; discriminate.
Defined.

(** X15. [close] does not forget the hovered block: after a move to a
    block and a close, the toolbar is closed but a click on the toggler
    still makes that block the current one and emits "settings clicked"
    for it. *)
Theorem close_keeps_hoveredBlock (s : State) (b : Block) :
  reachable s ->
  built s ->
  readOnly_isEnabled (editor s) = false ->
  exists s1 s2 s3,
    moveAndOpen (Some b) s = Ok tt s1
    /\ close s1 = Ok tt s2
    /\ isOpened s2 = false
    /\ hoveredBlock s2 = Some b
    /\ settingsToggleClicked s2 = Ok tt s3
    /\ trace s3
       = trace s ++ [SetCurrentBlock (Some b); Emit SettingsClicked (Some b)].
Proof.
  intros Hr Hb Hro. apply reachable_hover_only in Hr.
  destruct (built_nodes s Hb) as (w & a & t & Ew & Ea & Et).
  pose (s1 := moved s b w a t).
  pose (s2 := closed s1
                (classList_add CSS.toolbarOpened (assign_top (top_text s b) w))
                (classList_add CSS.actionsOpened a)).
  assert (H2 : hover_only s2) by (apply (hover_only_same s); [reflexivity | exact Hr]).
  destruct (settingsToggleClicked_run s2 H2) as (s3 & H3 & T3 & _ & _).
  exists s1, s2, s3.
  split; [now apply moveAndOpen_built_run |].
  split; [apply close_run; [exact Hro | reflexivity ..] |].
  split.
  { subst s2 s1. unfold closed, moved. msimpl.
    rewrite classList_assign_top. msimpl. apply contains_remove. }
  split; [reflexivity |]. split; [exact H3 |]. exact T3.
Qed.

Lemma close_keeps_hoveredBlock_witness :
  let w := mkWindow 800 1024 0 in
  let A := mkBlock 0 (mkHolder 120 40 300) "8px" false true in
  let s0 := init (Some false) (mkEditor [A] 0 false false w false) in
  let s := run [OpToggleReadOnly false; OpRunIdle] s0 in
  exists s1 s2 s3,
    moveAndOpen (Some A) s = Ok tt s1
    /\ close s1 = Ok tt s2
    /\ isOpened s2 = false
    /\ hoveredBlock s2 = Some A
    /\ settingsToggleClicked s2 = Ok tt s3
    /\ trace s3
       = trace s ++ [SetCurrentBlock (Some A); Emit SettingsClicked (Some A)].
Proof.
  intros w A s0 s. apply (close_keeps_hoveredBlock s A).
  - apply reachable_run, reach_init.
  - unfold built. repeat split; discriminate.
  - reflexivity.
Defined.
